(** * The serializer registry of faust ([faust/serializers/registry.py])

    A shallow embedding of the class [Registry]: the four public coroutines
    [loads_key], [loads_value], [dumps_key], [dumps_value] and the private
    helpers [_loads], [_loads_model], [_get_serializer].

    - Python objects are an inductive type [Value]; exceptions are records
      carrying the method resolution order of their class, so that
      [except KeyError] and [except Exception] filter as Python does.
    - The registry object is a record; its [_override] dictionary is a
      [gmap string Client].
    - A coroutine is a function in a state-and-exception monad [M].  The state
      holds the registry object, the allocator of object identities, the state
      of the outside world the external serializer clients talk to, and a
      ghost trace of every call made to a collaborator.
    - The collaborators imported by the module (codec layer, model base
      class, plugin resolver, external clients) are the fields of [Env]. *)

From Stdlib Require Import ZArith String Ascii List DecimalString.
From stdpp Require Import gmap strings list fin_maps.

Local Open Scope string_scope.

(* ===================================================================== *)
(** ** Python data                                                        *)
(* ===================================================================== *)

(** [CodecArg]: [None], a codec name, or a [CodecT] instance (known by its
    [repr]). *)
Inductive CodecArg :=
| CNone
| CStr (name : string)
| CCodec (repr : string).

(** The class of a typed record; [options_serializer] is
    [cls._options.serializer]. *)
Record ModelClass := {
  model_name : string;
  options_serializer : CodecArg
}.

(** Python values that travel through the registry. [VModel cls data] is an
    instance of the model class [cls]. *)
#[warnings="-register-all"]
Inductive Value :=
| VNone
| VBytes (b : list Byte.byte)
| VStr (s : string)
| VInt (z : Z)
| VDict (items : list (string * Value))
| VModel (cls : ModelClass) (data : Value).

(** The [typ] argument of the decoders ([ModelArg], optional): nothing, a
    codec name, a codec instance, a model class, or another class such as
    [bytes] or [str], which has no [_options]. *)
Inductive Typ :=
| TNone
| TStr (name : string)
| TCodec (repr : string)
| TModel (cls : ModelClass)
| TClass (name : string).

(** An exception object: the names of the classes in the MRO of its class,
    what [str(exc)] gives, its traceback, and the two attributes that
    [raise ... from ...] sets.  The [__context__] that the interpreter
    records on its own when an exception is raised inside a handler is
    not part of the model. *)
#[warnings="-register-all"]
Inductive Exn := MkExn {
  exc_mro : list string;
  exc_str : string;
  exc_traceback : list string;
  exc_cause : option Exn;
  exc_suppress_context : bool
}.

Inductive Result (A : Type) :=
| Ok (a : A)
| Raise (e : Exn).
Arguments Ok {A} a.
Arguments Raise {A} e.

(** [isinstance(exc, cls)] *)
Definition isinstance (cls : string) (e : Exn) : bool :=
  existsb (String.eqb cls) (exc_mro e).


(** A freshly raised exception of a class with the given MRO. *)
Definition new_exn (mro : list string) (msg : string) : Exn :=
  {| exc_mro := mro; exc_str := msg; exc_traceback := [];
     exc_cause := None; exc_suppress_context := false |}.

Definition mro_KeyError : list string :=
  ["KeyError"; "LookupError"; "Exception"; "BaseException"; "object"].
Definition mro_AttributeError : list string :=
  ["AttributeError"; "Exception"; "BaseException"; "object"].

(** Modelled from the spec: the classes [KeyDecodeError] and
    [ValueDecodeError] of [faust.exceptions] (imported, not defined, by the
    module): decode-specific error types, ordinary subclasses of
    [Exception]. *)
Definition mro_KeyDecodeError : list string :=
  ["KeyDecodeError"; "DecodeError"; "FaustError"; "Exception";
   "BaseException"; "object"].
Definition mro_ValueDecodeError : list string :=
  ["ValueDecodeError"; "DecodeError"; "FaustError"; "Exception";
   "BaseException"; "object"].

Definition repr_str (s : string) : string := "'" +:+ s +:+ "'".

Definition repr_codec (c : CodecArg) : string :=
  match c with
  | CNone => "None"
  | CStr s => repr_str s
  | CCodec r => r
  end.

(** [KeyError(name)]; [str] of a [KeyError] is the [repr] of its argument. *)
Definition KeyError (name : CodecArg) : Exn :=
  new_exn mro_KeyError (repr_codec name).

Definition AttributeError (msg : string) : Exn :=
  new_exn mro_AttributeError msg.

(** [DecodeErrorClass(str(exc)).with_traceback(sys.exc_info()[2])], raised
    [from None]: the message and the traceback of [exc], no cause, and the
    context suppressed. *)
Definition decode_error (mro : list string) (exc : Exn) : Exn :=
  {| exc_mro := mro; exc_str := exc_str exc;
     exc_traceback := exc_traceback exc;
     exc_cause := None; exc_suppress_context := true |}.

(** Truth value of a codec argument in [if serializer:] and [a or b]. *)
Definition truthy (c : CodecArg) : bool :=
  match c with
  | CNone => false
  | CStr s => negb (String.eqb s "")
  | CCodec _ => true
  end.

(** [a or b] *)
Definition py_or (a b : CodecArg) : CodecArg :=
  if truthy a then a else b.

Definition is_none (v : Value) : bool :=
  match v with
  | VNone => true
  | _ => false
  end.

(** Modelled from the spec: [faust.utils.compat.want_bytes], which coerces a
    text string to a byte string (its UTF-8 encoding) and leaves anything
    else as it is. *)
Definition want_bytes (v : Value) : Value :=
  match v with
  | VStr s => VBytes (list_byte_of_string s)
  | _ => v
  end.

(* ===================================================================== *)
(** ** External serializer clients and the collaborators                  *)
(* ===================================================================== *)

(** An [AsyncSerializerT] instance: its identity and its class. *)
Record Client := {
  client_id : nat;
  client_class : string
}.

(** Ghost trace: one event per call that leaves the registry. *)
Inductive Event :=
| EvGetAlias (name : string)
| EvSymbolByName (path : string)
| EvCallClass (cls : string) (id : nat)
| EvCreated (name : string) (c : Client)
| EvCodecLoads (ser : CodecArg) (data : Value)
| EvCodecDumps (ser : CodecArg) (obj : Value)
| EvClientLoads (c : Client) (data : Value)
| EvClientDumpsKey (c : Client) (topic : string) (key : Value)
| EvClientDumpsValue (c : Client) (topic : string) (value : Value)
| EvModelDumps (cls : ModelClass) (data : Value) (ser : CodecArg)
| EvMaybeReconstruct (data : Value)
| EvMaybeNamespace (data : Value)
| EvModelInit (cls : ModelClass) (data : Value).

(** What the module imports.  Pure collaborators are functions into
    [Result]; the external clients also read and change the [World]. *)
Record Env := {
  World : Type;
  (** [Registry.override_classes.aliases] *)
  override_classes : gmap string string;
  (** [symbol_by_name(path)]: the class, or an import failure *)
  symbol_by_name : string -> Result string;
  (** [cls(registry)]: the constructor of a client class, run on the new
      object [id] *)
  ser_init : string -> nat -> World -> Result unit * World;
  ser_loads : Client -> Value -> World -> Result Value * World;
  ser_dumps_key : Client -> string -> Value -> World -> Result Value * World;
  ser_dumps_value : Client -> string -> Value -> World -> Result Value * World;
  (** [codecs.loads] and [codecs.dumps] *)
  codec_loads : CodecArg -> Value -> Result Value;
  codec_dumps : CodecArg -> Value -> Result Value;
  (** [Model._maybe_reconstruct], [Model._maybe_namespace], the call of
      a model class, and [ModelT.dumps] *)
  maybe_reconstruct : Value -> Result Value;
  maybe_namespace : Value -> Result (option ModelClass);
  model_init : ModelClass -> Value -> Result Value;
  model_dumps : ModelClass -> Value -> CodecArg -> Result Value
}.

(* ===================================================================== *)
(** ** The registry and its monad                                         *)
(* ===================================================================== *)

Record Registry := {
  key_serializer : CodecArg;
  value_serializer : CodecArg;
  _override : gmap string Client
}.

(** [Registry.__init__] *)
Definition Registry_init (key_serializer value_serializer : CodecArg)
  : Registry :=
  {| key_serializer := key_serializer;
     value_serializer := value_serializer;
     _override := ∅ |}.

Section WithEnv.

Context (E : Env).

Record State := {
  reg : Registry;
  next_id : nat;
  world : World E;
  trace : list Event
}.

Definition M (A : Type) : Type := State -> Result A * State.

Definition ret {A} (a : A) : M A := fun st => (Ok a, st).

Definition raise {A} (e : Exn) : M A := fun st => (Raise e, st).

Definition bind {A B} (m : M A) (k : A -> M B) : M B :=
  fun st =>
    match m st with
    | (Ok a, st') => k a st'
    | (Raise e, st') => (Raise e, st')
    end.

Notation "'let*' x ':=' m 'in' k" := (bind m (fun x => k))
  (at level 10, x name, m at level 100, k at level 200).

(** [try: body / except <catches> as exc: handler exc / else: orelse] *)
Definition try_except_else {A B} (body : M A) (catches : Exn -> bool)
    (handler : Exn -> M B) (orelse : A -> M B) : M B :=
  fun st =>
    match body st with
    | (Ok a, st') => orelse a st'
    | (Raise e, st') =>
        if catches e then handler e st' else (Raise e, st')
    end.

Definition try_except {A} (body : M A) (catches : Exn -> bool)
    (handler : Exn -> M A) : M A :=
  try_except_else body catches handler ret.

Definition emit (ev : Event) : M unit :=
  fun st =>
    (Ok tt, {| reg := reg st; next_id := next_id st; world := world st;
               trace := trace st ++ [ev] |}).

Definition lift {A} (r : Result A) : M A := fun st => (r, st).

Definition lift_world {A} (f : World E -> Result A * World E) : M A :=
  fun st =>
    let (r, w) := f (world st) in
    (r, {| reg := reg st; next_id := next_id st; world := w;
           trace := trace st |}).

Definition get_registry : M Registry := fun st => (Ok (reg st), st).

(** [self._override[name]] *)
Definition override_getitem (name : string) : M Client :=
  fun st =>
    match _override (reg st) !! name with
    | Some c => (Ok c, st)
    | None => (Raise (KeyError (CStr name)), st)
    end.

(** [self._override[name] = c] *)
Definition override_setitem (name : string) (c : Client) : M unit :=
  fun st =>
    (Ok tt,
     {| reg := {| key_serializer := key_serializer (reg st);
                  value_serializer := value_serializer (reg st);
                  _override := <[name := c]> (_override (reg st)) |};
        next_id := next_id st; world := world st; trace := trace st |}).

(** [self.override_classes.get_alias(name)], that is [aliases[name]] *)
Definition get_alias (name : string) : M string :=
  let* _ := emit (EvGetAlias name) in
  match override_classes E !! name with
  | Some path => ret path
  | None => raise (KeyError (CStr name))
  end.

Definition call_symbol_by_name (path : string) : M string :=
  let* _ := emit (EvSymbolByName path) in
  lift (symbol_by_name E path).

(** [cls(self)]: a new object is allocated and the constructor of the
    class runs on it. *)
Definition call_class (cls : string) : M Client :=
  fun st =>
    let id := next_id st in
    let (r, w) := ser_init E cls id (world st) in
    let st' := {| reg := reg st; next_id := S id; world := w;
                  trace := trace st ++ [EvCallClass cls id] |} in
    match r with
    | Ok _ => (Ok {| client_id := id; client_class := cls |}, st')
    | Raise e => (Raise e, st')
    end.

(** [Registry._get_serializer] *)
Definition _get_serializer (name : CodecArg) : M Client :=
  match name with
  | CStr n =>
      try_except (override_getitem n) (isinstance "KeyError")
        (fun _ =>
           let* path := get_alias n in
           let* cls := call_symbol_by_name path in
           let* ser := call_class cls in
           let* _ := override_setitem n ser in
           let* _ := emit (EvCreated n ser) in
           ret ser)
  | _ => raise (KeyError name)
  end.

(** [Registry._loads] *)
Definition _loads (serializer : CodecArg) (data : Value) : M Value :=
  try_except_else (_get_serializer serializer) (isinstance "KeyError")
    (fun _ =>
       let* _ := emit (EvCodecLoads serializer data) in
       lift (codec_loads E serializer data))
    (fun ser =>
       let* _ := emit (EvClientLoads ser data) in
       lift_world (ser_loads E ser data)).

(** [typ._options.serializer] *)
Definition typ_options_serializer (typ : Typ) : M CodecArg :=
  match typ with
  | TModel cls => ret (options_serializer cls)
  | TClass name =>
      raise (AttributeError
               ("type object " +:+ repr_str name
                +:+ " has no attribute '_options'"))
  | TNone =>
      raise (AttributeError
               "'NoneType' object has no attribute '_options'")
  | TStr _ =>
      raise (AttributeError "'str' object has no attribute '_options'")
  | TCodec _ =>
      raise (AttributeError "codec object has no attribute '_options'")
  end.

(** The call [cls(data)] of a model class. *)
Definition call_model (cls : ModelClass) (data : Value) : M Value :=
  let* _ := emit (EvModelInit cls data) in
  let* fields := lift (model_init E cls data) in
  ret (VModel cls fields).

(** [typ(data)] *)
Definition call_typ (typ : Typ) (data : Value) : M Value :=
  match typ with
  | TModel cls => call_model cls data
  | _ => raise (new_exn ["TypeError"; "Exception"; "BaseException"; "object"]
                  "object is not a model class")
  end.

(** [Registry._loads_model] *)
Definition _loads_model (typ : Typ) (default_serializer : CodecArg)
    (data : Value) : M Value :=
  let* own := typ_options_serializer typ in
  let* data := _loads (py_or own default_serializer) data in
  let* _ := emit (EvMaybeNamespace data) in
  let* self_cls := lift (maybe_namespace E data) in
  match self_cls with
  | Some cls => call_model cls data
  | None => call_typ typ data
  end.

(** [typ is None or isinstance(typ, (str, CodecT))] *)
Definition is_codec_hint (typ : Typ) : bool :=
  match typ with
  | TNone | TStr _ | TCodec _ => true
  | TModel _ | TClass _ => false
  end.

Definition typ_is_none (typ : Typ) : bool :=
  match typ with
  | TNone => true
  | _ => false
  end.

Definition call_maybe_reconstruct (data : Value) : M Value :=
  let* _ := emit (EvMaybeReconstruct data) in
  lift (maybe_reconstruct E data).

(** The body of the [try] statement of [loads_key] and [loads_value]. *)
Definition loads_body (typ : Typ) (serializer : CodecArg) (data : Value)
  : M Value :=
  if is_codec_hint typ then
    let* decoded := _loads serializer data in
    call_maybe_reconstruct decoded
  else
    _loads_model typ serializer data.

(** [Registry.loads_key] *)
Definition loads_key (typ : Typ) (key : Value) : M Value :=
  if is_none key || typ_is_none typ then ret key
  else
    try_except
      (let* self := get_registry in
       loads_body typ (key_serializer self) key)
      (isinstance "Exception")
      (fun exc => raise (decode_error mro_KeyDecodeError exc)).

(** [Registry.loads_value] *)
Definition loads_value (typ : Typ) (value : Value) : M Value :=
  if is_none value then ret VNone
  else
    try_except
      (let* self := get_registry in
       let serializer := value_serializer self in
       loads_body typ serializer value)
      (isinstance "Exception")
      (fun exc => raise (decode_error mro_ValueDecodeError exc)).

(** [isinstance(value, ModelT)] *)
Definition is_model (v : Value) : bool :=
  match v with
  | VModel _ _ => true
  | _ => false
  end.

(** [cast(ModelT, value).dumps(serializer=serializer)] *)
Definition call_model_dumps (v : Value) (serializer : CodecArg) : M Value :=
  match v with
  | VModel cls data =>
      let* _ := emit (EvModelDumps cls data serializer) in
      lift (model_dumps E cls data serializer)
  | _ => raise (AttributeError "object has no attribute 'dumps'")
  end.

Definition call_codec_dumps (serializer : CodecArg) (obj : Value)
  : M Value :=
  let* _ := emit (EvCodecDumps serializer obj) in
  lift (codec_dumps E serializer obj).

(** [Registry.dumps_key] *)
Definition dumps_key (topic : string) (key : Value) (serializer : CodecArg)
  : M Value :=
  let* self := get_registry in
  let serializer := key_serializer self in
  let '(is_model, serializer) :=
    match key with
    | VModel cls _ => (true, py_or (options_serializer cls) serializer)
    | _ => (false, serializer)
    end in
  if truthy serializer then
    try_except_else (_get_serializer serializer) (isinstance "KeyError")
      (fun _ =>
         if is_model then call_model_dumps key serializer
         else call_codec_dumps serializer key)
      (fun ser =>
         let* _ := emit (EvClientDumpsKey ser topic key) in
         lift_world (ser_dumps_key E ser topic key))
  else
    ret (if is_none key then VNone else want_bytes key).

(** [Registry.dumps_value] *)
Definition dumps_value (topic : string) (value : Value)
    (serializer : CodecArg) : M Value :=
  let* self := get_registry in
  let '(is_model, serializer) :=
    match value with
    | VModel cls _ =>
        (true, py_or (options_serializer cls) (value_serializer self))
    | _ => (false, serializer)
    end in
  if truthy serializer then
    try_except_else (_get_serializer serializer) (isinstance "KeyError")
      (fun _ =>
         if is_model then call_model_dumps value serializer
         else call_codec_dumps serializer value)
      (fun ser =>
         let* _ := emit (EvClientDumpsValue ser topic value) in
         lift_world (ser_dumps_value E ser topic value))
  else
    ret value.

End WithEnv.

Arguments reg {E} s.
Arguments next_id {E} s.
Arguments world {E} s.
Arguments trace {E} s.
Arguments ret {E A} a.
Arguments raise {E A} e.
Arguments bind {E A B} m k.
Arguments try_except_else {E A B} body catches handler orelse.
Arguments try_except {E A} body catches handler.
Arguments lift {E A} r.
Arguments lift_world {E A} f.

Notation "'let*' x ':=' m 'in' k" := (bind m (fun x => k))
  (at level 10, x name, m at level 100, k at level 200).

(* ===================================================================== *)
(** ** The life of a registry                                             *)
(* ===================================================================== *)

(** The state right after [Registry(key_serializer, value_serializer)]. *)
Definition fresh_state (E : Env) (key_ser value_ser : CodecArg)
    (w : World E) : State E :=
  {| reg := Registry_init key_ser value_ser; next_id := 0; world := w;
     trace := [] |}.

(** One call of a method of the registry. *)
Inductive Call :=
| CallLoadsKey (typ : Typ) (key : Value)
| CallLoadsValue (typ : Typ) (value : Value)
| CallDumpsKey (topic : string) (key : Value) (serializer : CodecArg)
| CallDumpsValue (topic : string) (value : Value) (serializer : CodecArg)
| CallGetSerializer (name : CodecArg).

(** The state a call leaves behind, whether it returns or raises. *)
Definition run (E : Env) (c : Call) (st : State E) : State E :=
  match c with
  | CallLoadsKey typ key => snd (loads_key E typ key st)
  | CallLoadsValue typ value => snd (loads_value E typ value st)
  | CallDumpsKey topic key s => snd (dumps_key E topic key s st)
  | CallDumpsValue topic value s => snd (dumps_value E topic value s st)
  | CallGetSerializer name => snd (_get_serializer E name st)
  end.

(** The states of a registry during its lifetime. *)
Inductive reachable (E : Env) : State E -> Prop :=
| reachable_fresh key_ser value_ser w :
    reachable E (fresh_state E key_ser value_ser w)
| reachable_run st c :
    reachable E st -> reachable E (run E c st).

(** The client created for [name] by event [ev], if it is such an event. *)
Definition created (name : string) (ev : Event) : option Client :=
  match ev with
  | EvCreated n c => if String.eqb name n then Some c else None
  | _ => None
  end.

(** All client instances ever created for [name], oldest first. *)
Definition created_for (name : string) (t : list Event) : list Client :=
  omap (created name) t.

(** The serializer in force in [dumps_key] when [if serializer:] is
    reached (lines 103-108). *)
Definition key_effective_serializer (r : Registry) (key : Value)
  : CodecArg :=
  match key with
  | VModel cls _ => py_or (options_serializer cls) (key_serializer r)
  | _ => key_serializer r
  end.

(** The serializer in force in [dumps_value] when [if serializer:] is
    reached (lines 131-135). *)
Definition value_effective_serializer (r : Registry) (value : Value)
    (serializer : CodecArg) : CodecArg :=
  match value with
  | VModel cls _ => py_or (options_serializer cls) (value_serializer r)
  | _ => serializer
  end.


(** [st] with one more event in its trace. *)
Definition logged {E : Env} (st : State E) (evs : list Event) : State E :=
  {| reg := reg st; next_id := next_id st; world := world st;
     trace := trace st ++ evs |}.

(** [st] after the outside world moved to [w]. *)
Definition with_world {E : Env} (st : State E) (w : World E) : State E :=
  {| reg := reg st; next_id := next_id st; world := w; trace := trace st |}.

(** [st] for a registry built with another default value serializer. *)
Definition with_value_serializer {E : Env} (st : State E) (vs : CodecArg)
  : State E :=
  {| reg := {| key_serializer := key_serializer (reg st);
               value_serializer := vs;
               _override := _override (reg st) |};
     next_id := next_id st; world := world st; trace := trace st |}.

(* ===================================================================== *)
(** ** A concrete set of collaborators                                    *)
(* ===================================================================== *)

Module Demo.

Definition dquote : string := String "034"%char EmptyString.

(** Characters that [json.dumps] writes as they are. *)
Definition json_plain_char (c : ascii) : bool :=
  let n := nat_of_ascii c in
  (32 <=? n)%nat && (n <=? 126)%nat && negb (n =? 34)%nat
  && negb (n =? 92)%nat.

Fixpoint json_plain (s : string) : bool :=
  match s with
  | EmptyString => true
  | String c rest => json_plain_char c && json_plain rest
  end.

Definition json_string (s : string) : option string :=
  if json_plain s then Some (dquote +:+ s +:+ dquote) else None.

(** Modelled from the spec: the [json] codec of the codec layer, which
    gives the UTF-8 bytes of Python's [json.dumps] with its default
    separators.  Covered: [None], integers, strings of plain characters
    and dictionaries of these; anything else is not serializable here. *)
Fixpoint json_text (v : Value) : option string :=
  match v with
  | VNone => Some "null"
  | VInt z => Some (NilZero.string_of_int (Z.to_int z))
  | VStr s => json_string s
  | VDict items =>
      let fix members (items : list (string * Value))
        : option (list string) :=
        match items with
        | [] => Some []
        | (k, x) :: rest =>
            match json_string k, json_text x, members rest with
            | Some kt, Some xt, Some ts => Some ((kt +:+ ": " +:+ xt) :: ts)
            | _, _, _ => None
            end
        end in
      match members items with
      | Some ts => Some ("{" +:+ String.concat ", " ts +:+ "}")
      | None => None
      end
  | VBytes _ | VModel _ _ => None
  end.

Definition TypeError (msg : string) : Exn :=
  new_exn ["TypeError"; "Exception"; "BaseException"; "object"] msg.
Definition ValueError (msg : string) : Exn :=
  new_exn ["ValueError"; "Exception"; "BaseException"; "object"] msg.

Definition json_dumps (v : Value) : Result Value :=
  match json_text v with
  | Some t => Ok (VBytes (list_byte_of_string t))
  | None => Raise (TypeError "Object is not JSON serializable")
  end.

(** Codecs of the demonstration: [json] (encoding only), [raw] (the
    identity), [fail], which always fails, and [ns] (decoding only), whose
    payload is the name of the class it describes; without a codec the
    data passes through; any other name is unknown to the codec layer. *)
Definition demo_dumps (s : CodecArg) (obj : Value) : Result Value :=
  match s with
  | CNone => Ok obj
  | CCodec _ => Ok obj
  | CStr name =>
      if String.eqb name "json" then json_dumps obj
      else if String.eqb name "raw" then Ok obj
      else if String.eqb name "fail" then Raise (ValueError "cannot encode")
      else Raise (KeyError s)
  end.

Definition demo_loads (s : CodecArg) (data : Value) : Result Value :=
  match s with
  | CNone => Ok data
  | CCodec _ => Ok data
  | CStr name =>
      if String.eqb name "raw" then Ok data
      else if String.eqb name "fail" then Raise (ValueError "cannot decode")
      else if String.eqb name "ns" then
        match data with
        | VBytes b => Ok (VDict [("__faust", VStr (string_of_list_byte b))])
        | _ => Raise (TypeError "a bytes-like object is required")
        end
      else Raise (KeyError s)
  end.

Fixpoint dict_get (k : string) (items : list (string * Value))
  : option Value :=
  match items with
  | [] => None
  | (k', v) :: rest => if String.eqb k k' then Some v else dict_get k rest
  end.

(** A decoded dictionary names its own class under the key [__faust]. *)
Definition demo_namespace (data : Value) : Result (option ModelClass) :=
  match data with
  | VDict items =>
      match dict_get "__faust" items with
      | Some (VStr ns) =>
          Ok (Some {| model_name := ns; options_serializer := CNone |})
      | Some _ => Raise (TypeError "bad namespace")
      | None => Ok None
      end
  | _ => Ok None
  end.

(** An external client that counts its requests in the world and handles
    records only. *)
Definition demo_client_dumps (c : Client) (topic : string) (v : Value)
    (w : nat) : Result Value * nat :=
  match v with
  | VModel cls _ => (Ok (VBytes (list_byte_of_string (model_name cls))), S w)
  | _ => (Raise (ValueError "not a record"), S w)
  end.

Definition avro_path : string := "faust.serializers.avro.faust:AvroSerializer".

Definition env : Env :=
  {| World := nat;
     override_classes := {[ "avro" := avro_path ]};
     symbol_by_name := fun path => Ok path;
     ser_init := fun _ _ w => (Ok tt, w);
     ser_loads := fun _ data w => (Ok data, S w);
     ser_dumps_key := demo_client_dumps;
     ser_dumps_value := demo_client_dumps;
     codec_loads := demo_loads;
     codec_dumps := demo_dumps;
     maybe_reconstruct := fun data => Ok data;
     maybe_namespace := demo_namespace;
     model_init := fun _ data => Ok data;
     model_dumps := fun _ data s => demo_dumps s data |}.

(** [Registry()] with its defaults: no key serializer, [json] for values. *)
Definition st0 : State env := fresh_state env CNone (CStr "json") 0.

(** The dictionary [{"a": 1}] and the bytes of its JSON text. *)
Definition dict_a1 : Value := VDict [("a", VInt 1)].
Definition json_a1 : Value :=
  VBytes (list_byte_of_string ("{" +:+ dquote +:+ "a" +:+ dquote +:+ ": 1}")).

(** A record class that declares [raw] as its serializer, one that declares
    none, and an instance of each. *)
Definition RawPoint : ModelClass :=
  {| model_name := "RawPoint"; options_serializer := CStr "raw" |}.
Definition Point : ModelClass :=
  {| model_name := "Point"; options_serializer := CNone |}.
Definition raw_point : Value := VModel RawPoint dict_a1.
Definition point : Value := VModel Point dict_a1.

Definition st_raw : State env := fresh_state env (CStr "raw") (CStr "raw") 0.

Definition sub_bytes : Value := VBytes (list_byte_of_string "Sub").

(** A record class served by the external [avro] client. *)
Definition AvroPoint : ModelClass :=
  {| model_name := "AvroPoint"; options_serializer := CStr "avro" |}.
Definition avro_point : Value := VModel AvroPoint dict_a1.

(** Collaborators that misbehave: the class behind the alias [needs_env]
    fails at import with a [KeyError] (a missing environment variable),
    the constructor of the class behind [needs_conf] fails with a
    [KeyError], and the codec [interrupt] is interrupted from the
    keyboard. *)
Definition KeyboardInterrupt : Exn :=
  new_exn ["KeyboardInterrupt"; "BaseException"; "object"] "".
Definition needs_env_path : string := "plugin.needs_env:Client".
Definition needs_conf_path : string := "plugin.needs_conf:Client".

Definition broken_env : Env :=
  {| World := nat;
     override_classes :=
       {[ "avro" := avro_path; "needs_env" := needs_env_path;
          "needs_conf" := needs_conf_path ]};
     symbol_by_name := fun path =>
       if String.eqb path needs_env_path
       then Raise (KeyError (CStr "SCHEMA_REGISTRY_URL"))
       else Ok path;
     ser_init := fun cls _ w =>
       if String.eqb cls needs_conf_path
       then (Raise (KeyError (CStr "url")), w)
       else (Ok tt, w);
     ser_loads := fun _ data w => (Ok data, S w);
     ser_dumps_key := demo_client_dumps;
     ser_dumps_value := demo_client_dumps;
     codec_loads := fun s data =>
       match s with
       | CStr "interrupt" => Raise KeyboardInterrupt
       | CStr "needs_env" | CStr "needs_conf" => Ok data
       | _ => demo_loads s data
       end;
     codec_dumps := fun s obj =>
       match s with
       | CStr "needs_env" | CStr "needs_conf" => Ok obj
       | _ => demo_dumps s obj
       end;
     maybe_reconstruct := fun data => Ok data;
     maybe_namespace := demo_namespace;
     model_init := fun _ data => Ok data;
     model_dumps := fun _ data s => demo_dumps s data |}.

Definition broken_st0 : State broken_env :=
  fresh_state broken_env CNone (CStr "interrupt") 0.

(** The state of [Registry()] after its first use of the [avro] client. *)
Definition st_avro : State env :=
  run env (CallGetSerializer (CStr "avro")) st0.
Definition avro_client : Client :=
  {| client_id := 0; client_class := avro_path |}.

End Demo.


(* ===================================================================== *)
(** ** Vocabulary of the statements                                      *)
(* ===================================================================== *)

(** The five ways a lookup of a codec name can go. *)
Inductive resolution (E : Env) (n : string) (st : State E)
  : Result Client * State E -> Prop :=
| res_cached c :
    _override (reg st) !! n = Some c ->
    resolution E n st (Ok c, st)
| res_unknown :
    _override (reg st) !! n = None ->
    override_classes E !! n = None ->
    resolution E n st (Raise (KeyError (CStr n)), logged st [EvGetAlias n])
| res_import_error path e :
    _override (reg st) !! n = None ->
    override_classes E !! n = Some path ->
    symbol_by_name E path = Raise e ->
    resolution E n st
      (Raise e, logged st [EvGetAlias n; EvSymbolByName path])
| res_init_error path cls e w :
    _override (reg st) !! n = None ->
    override_classes E !! n = Some path ->
    symbol_by_name E path = Ok cls ->
    ser_init E cls (next_id st) (world st) = (Raise e, w) ->
    resolution E n st
      (Raise e,
       {| reg := reg st; next_id := S (next_id st); world := w;
          trace := trace st ++ [EvGetAlias n; EvSymbolByName path;
                                EvCallClass cls (next_id st)] |})
| res_fresh path cls w :
    _override (reg st) !! n = None ->
    override_classes E !! n = Some path ->
    symbol_by_name E path = Ok cls ->
    ser_init E cls (next_id st) (world st) = (Ok tt, w) ->
    resolution E n st
      (Ok {| client_id := next_id st; client_class := cls |},
       {| reg := {| key_serializer := key_serializer (reg st);
                    value_serializer := value_serializer (reg st);
                    _override :=
                      <[n := {| client_id := next_id st;
                                client_class := cls |}]>
                        (_override (reg st)) |};
          next_id := S (next_id st); world := w;
          trace := trace st ++ [EvGetAlias n; EvSymbolByName path;
                                EvCallClass cls (next_id st);
                                EvCreated n
                                  {| client_id := next_id st;
                                     client_class := cls |}] |}).

(** What holds of a registry all its life: every cached name is an alias
    of the plugin table, and the clients ever created for a name are
    exactly the cached one, if any. *)
Definition registry_inv {E : Env} (st : State E) : Prop :=
  (forall n c, _override (reg st) !! n = Some c ->
               is_Some (override_classes E !! n))
  /\ (forall n, created_for n (trace st)
                = option_list (_override (reg st) !! n)).

(** How a step may change the state: the defaults stay, the cache only
    grows, the invariant is kept. *)
Definition evolves {E : Env} (st st' : State E) : Prop :=
  key_serializer (reg st') = key_serializer (reg st)
  /\ value_serializer (reg st') = value_serializer (reg st)
  /\ _override (reg st) ⊆ _override (reg st')
  /\ (registry_inv st -> registry_inv st').

Definition preserves {E : Env} {A} (m : M E A) : Prop :=
  forall st, evolves st (snd (m st)).

(** The outcome of a call to an external client in state [st]: the event
    is logged, the client answers and moves the world. *)
Definition client_call {E : Env} {A} (st : State E) (ev : Event)
    (f : World E -> Result A * World E) : Result A * State E :=
  (fst (f (world st)), with_world (logged st [ev]) (snd (f (world st)))).

(** The outcome of a call to a pure collaborator in state [st]. *)
Definition pure_call {E : Env} {A} (st : State E) (ev : Event)
    (r : Result A) : Result A * State E :=
  (r, logged st [ev]).

(** How [dumps_value] encodes an instance of [cls] once serializer [s] is
    in force: through the external client of that name if there is one,
    else by the record's own [dumps]. *)
Definition model_value_encoding (E : Env) (s : CodecArg) (topic : string)
    (cls : ModelClass) (data : Value) (st : State E)
  : Result Value * State E :=
  match _get_serializer E s st with
  | (Ok ser, st1) =>
      client_call st1 (EvClientDumpsValue ser topic (VModel cls data))
        (ser_dumps_value E ser topic (VModel cls data))
  | (Raise e, st1) =>
      if isinstance "KeyError" e then
        pure_call st1 (EvModelDumps cls data s) (model_dumps E cls data s)
      else (Raise e, st1)
  end.

(** What the caller of a decoder sees of an exception [e] raised in the
    [try] block: [except Exception] turns instances of [Exception] into
    the decode error. *)
Definition as_decode_error (mro : list string) (e : Exn) : Exn :=
  if isinstance "Exception" e then decode_error mro e else e.



(** The plugin resolver and the client constructors report their own
    failures with something else than a [KeyError]. *)
Definition plugins_raise_no_KeyError (E : Env) : Prop :=
  (forall path e, symbol_by_name E path = Raise e ->
                  isinstance "KeyError" e = false)
  /\ (forall cls id w e w', ser_init E cls id w = (Raise e, w') ->
                            isinstance "KeyError" e = false).

(** [st] for a registry built with other default serializers. *)
Definition with_defaults {E : Env} (st : State E) (ks vs : CodecArg)
  : State E :=
  {| reg := {| key_serializer := ks; value_serializer := vs;
               _override := _override (reg st) |};
     next_id := next_id st; world := world st; trace := trace st |}.

(** A codec argument that cannot name an external client: not a string, or
    a string that the alias table does not have. *)
Definition no_client (E : Env) (s : CodecArg) : Prop :=
  match s with
  | CStr n => override_classes E !! n = None
  | _ => True
  end.

(** What a failed lookup of [s] leaves in the trace. *)
Definition lookup_events (s : CodecArg) : list Event :=
  match s with
  | CStr n => [EvGetAlias n]
  | _ => []
  end.

(** A step that leaves the registry object and the allocator alone. *)
Definition frame {E : Env} (st st' : State E) : Prop :=
  reg st' = reg st /\ next_id st' = next_id st.

Definition frames {E : Env} {A} (m : M E A) : Prop :=
  forall st, frame st (snd (m st)).

Definition stateless {E : Env} {A} (m : M E A) : Prop :=
  forall st, snd (m st) = st.

(** A step that leaves the registry object as it is; at most one object
    was allocated (a client whose constructor failed). *)
Definition keeps_registry {E : Env} (st st' : State E) : Prop :=
  reg st' = reg st
  /\ (next_id st' = next_id st \/ next_id st' = S (next_id st)).

(** A step that adds one client to the cache: a new object, of the class
    that the alias table and [symbol_by_name] give for a name that was
    not cached. *)
Definition adds_client {E : Env} (st st' : State E) : Prop :=
  exists n path c,
    _override (reg st) !! n = None
    /\ override_classes E !! n = Some path
    /\ symbol_by_name E path = Ok (client_class c)
    /\ client_id c = next_id st
    /\ reg st' = {| key_serializer := key_serializer (reg st);
                    value_serializer := value_serializer (reg st);
                    _override := <[n := c]> (_override (reg st)) |}
    /\ next_id st' = S (next_id st).

Definition registry_step {E : Env} (st st' : State E) : Prop :=
  keeps_registry st st' \/ adds_client st st'.

Definition one_lookup {E : Env} {A} (m : M E A) : Prop :=
  forall st, registry_step st (snd (m st)).

(** Every cached client is an object allocated by this registry, of the
    class registered for its name, and no two names share an object. *)
Definition cache_well_formed {E : Env} (st : State E) : Prop :=
  (forall n c,
     _override (reg st) !! n = Some c ->
     client_id c < next_id st
     /\ exists path, override_classes E !! n = Some path
                     /\ symbol_by_name E path = Ok (client_class c))
  /\ (forall n1 n2 c1 c2,
        _override (reg st) !! n1 = Some c1 ->
        _override (reg st) !! n2 = Some c2 ->
        client_id c1 = client_id c2 -> n1 = n2).

(** A computation that does not look at the default serializers. *)
Definition commutes {E : Env} {A} (m : M E A) : Prop :=
  forall st ks vs,
    m (with_defaults st ks vs)
    = (fst (m st), with_defaults (snd (m st)) ks vs).

(* ===================================================================== *)
(** ** The client resolver, case by case                                  *)
(* ===================================================================== *)

Section Resolver.

Context (E : Env).

Implicit Types (st : State E) (n path cls : string) (c : Client).

Lemma get_serializer_not_str name st :
  (forall n, name <> CStr n) ->
  _get_serializer E name st = (Raise (KeyError name), st).
Proof. intros Hn. destruct name; try reflexivity. by destruct (Hn name). Qed.

Lemma get_serializer_cached n c st :
  _override (reg st) !! n = Some c ->
  _get_serializer E (CStr n) st = (Ok c, st).
Proof.
  intros Hc. unfold _get_serializer, try_except, try_except_else,
    override_getitem. by rewrite Hc.
Qed.

Lemma get_serializer_unknown n st :
  _override (reg st) !! n = None ->
  override_classes E !! n = None ->
  _get_serializer E (CStr n) st
  = (Raise (KeyError (CStr n)), logged st [EvGetAlias n]).
Proof.
  intros Hc Ha. unfold _get_serializer, try_except, try_except_else,
    override_getitem, get_alias, bind, emit, raise. rewrite Hc. simpl.
  by rewrite Ha.
Qed.

Lemma get_serializer_import_error n path e st :
  _override (reg st) !! n = None ->
  override_classes E !! n = Some path ->
  symbol_by_name E path = Raise e ->
  _get_serializer E (CStr n) st
  = (Raise e, logged st [EvGetAlias n; EvSymbolByName path]).
Proof.
  intros Hc Ha Hs. unfold _get_serializer, try_except, try_except_else,
    override_getitem, get_alias, call_symbol_by_name, bind, emit, ret, lift.
  rewrite Hc. simpl. rewrite Ha. simpl. rewrite Hs. unfold logged. simpl.
  by rewrite <- app_assoc.
Qed.

Lemma get_serializer_init_error n path cls e w st :
  _override (reg st) !! n = None ->
  override_classes E !! n = Some path ->
  symbol_by_name E path = Ok cls ->
  ser_init E cls (next_id st) (world st) = (Raise e, w) ->
  _get_serializer E (CStr n) st
  = (Raise e,
     {| reg := reg st; next_id := S (next_id st); world := w;
        trace := trace st ++ [EvGetAlias n; EvSymbolByName path;
                              EvCallClass cls (next_id st)] |}).
Proof.
  intros Hc Ha Hs Hi. unfold _get_serializer, try_except, try_except_else,
    override_getitem, get_alias, call_symbol_by_name, call_class, bind, emit,
    ret, lift.
  rewrite Hc. simpl. rewrite Ha. simpl. rewrite Hs. simpl. rewrite Hi.
  by rewrite <- !app_assoc.
Qed.

Lemma get_serializer_fresh n path cls w st :
  _override (reg st) !! n = None ->
  override_classes E !! n = Some path ->
  symbol_by_name E path = Ok cls ->
  ser_init E cls (next_id st) (world st) = (Ok tt, w) ->
  let c := {| client_id := next_id st; client_class := cls |} in
  _get_serializer E (CStr n) st
  = (Ok c,
     {| reg := {| key_serializer := key_serializer (reg st);
                  value_serializer := value_serializer (reg st);
                  _override := <[n := c]> (_override (reg st)) |};
        next_id := S (next_id st); world := w;
        trace := trace st ++ [EvGetAlias n; EvSymbolByName path;
                              EvCallClass cls (next_id st);
                              EvCreated n c] |}).
Proof.
  intros Hc Ha Hs Hi c. unfold _get_serializer, try_except, try_except_else,
    override_getitem, override_setitem, get_alias, call_symbol_by_name,
    call_class, bind, emit, ret, lift.
  rewrite Hc. simpl. rewrite Ha. simpl. rewrite Hs. simpl. rewrite Hi. simpl.
  by rewrite <- !app_assoc.
Qed.

Lemma get_serializer_resolution n st :
  resolution E n st (_get_serializer E (CStr n) st).
Proof.
  destruct (_override (reg st) !! n) as [c|] eqn:Hc.
  { rewrite (get_serializer_cached _ _ _ Hc). by constructor. }
  destruct (override_classes E !! n) as [path|] eqn:Ha.
  2: { rewrite (get_serializer_unknown _ _ Hc Ha). by constructor. }
  destruct (symbol_by_name E path) as [cls|e] eqn:Hs.
  2: { rewrite (get_serializer_import_error _ _ _ _ Hc Ha Hs).
       by econstructor. }
  destruct (ser_init E cls (next_id st) (world st)) as [[[]|e] w] eqn:Hi.
  - rewrite (get_serializer_fresh _ _ _ _ _ Hc Ha Hs Hi). by econstructor.
  - rewrite (get_serializer_init_error _ _ _ _ _ _ Hc Ha Hs Hi).
    by econstructor.
Qed.

End Resolver.

(* ===================================================================== *)
(** ** What every method keeps                                            *)
(* ===================================================================== *)

Section Lifetime.

Context (E : Env).

Implicit Types (st : State E) (n : string).

Lemma evolves_refl st : evolves st st.
Proof. unfold evolves. auto. Qed.

Lemma evolves_trans st1 st2 st3 :
  evolves st1 st2 -> evolves st2 st3 -> evolves st1 st3.
Proof.
  intros (Hk1 & Hv1 & Hs1 & Hi1) (Hk2 & Hv2 & Hs2 & Hi2).
  unfold evolves. split_and!; [congruence | congruence | by etrans | auto].
Qed.

Lemma created_for_app n (t1 t2 : list Event) :
  created_for n (t1 ++ t2) = (created_for n t1 ++ created_for n t2)%list.
Proof. apply omap_app. Qed.

(** Events other than creations, and changes of the world, leave the
    invariant alone. *)
Lemma evolves_frame st k w (evs : list Event) :
  (forall n, created_for n evs = []) ->
  evolves st {| reg := reg st; next_id := k; world := w;
                trace := trace st ++ evs |}.
Proof.
  intros Hev. unfold evolves. split_and!; simpl; try done.
  intros [Ha Hc]. split; simpl; [done|].
  intros n. by rewrite created_for_app, Hev, app_nil_r.
Qed.

Lemma preserves_ret {A} (a : A) : preserves (E:=E) (ret a).
Proof. intros st. apply evolves_refl. Qed.

Lemma preserves_raise {A} e : preserves (E:=E) (A:=A) (raise e).
Proof. intros st. apply evolves_refl. Qed.

Lemma preserves_lift {A} (r : Result A) : preserves (E:=E) (lift r).
Proof. intros st. apply evolves_refl. Qed.

Lemma preserves_get_registry : preserves (get_registry E).
Proof. intros st. apply evolves_refl. Qed.

Lemma preserves_lift_world {A} (f : World E -> Result A * World E) :
  preserves (lift_world f).
Proof.
  intros st. unfold lift_world. destruct (f (world st)) as [r w]. simpl.
  rewrite <- (app_nil_r (trace st)). by apply evolves_frame.
Qed.

Lemma preserves_emit ev :
  (forall n, created n ev = None) -> preserves (emit E ev).
Proof.
  intros Hev st. apply evolves_frame. intros n. unfold created_for. simpl.
  by rewrite Hev.
Qed.

Lemma preserves_bind {A B} (m : M E A) (k : A -> M E B) :
  preserves m -> (forall a, preserves (k a)) -> preserves (bind m k).
Proof.
  intros Hm Hk st. unfold bind. specialize (Hm st).
  destruct (m st) as [[a|e] st']; simpl in *; [|done].
  eapply evolves_trans; [exact Hm | apply Hk].
Qed.

Lemma preserves_try_except_else {A B} (body : M E A) catches
    (handler : Exn -> M E B) (orelse : A -> M E B) :
  preserves body -> (forall e, preserves (handler e)) ->
  (forall a, preserves (orelse a)) ->
  preserves (try_except_else body catches handler orelse).
Proof.
  intros Hb Hh Ho st. unfold try_except_else. specialize (Hb st).
  destruct (body st) as [[a|e] st']; simpl in *.
  - eapply evolves_trans; [exact Hb | apply Ho].
  - destruct (catches e); [|done].
    eapply evolves_trans; [exact Hb | apply Hh].
Qed.

Lemma preserves_try_except {A} (body : M E A) catches handler :
  preserves body -> (forall e, preserves (handler e)) ->
  preserves (try_except body catches handler).
Proof.
  intros Hb Hh. apply preserves_try_except_else; [done | done |].
  intros a. apply preserves_ret.
Qed.

Lemma preserves_get_serializer name : preserves (_get_serializer E name).
Proof.
  intros st. destruct name as [|n|r]; try apply evolves_refl.
  destruct (get_serializer_resolution E n st)
    as [c Hc|Hc Ha|path e Hc Ha Hs|path cls e w Hc Ha Hs Hi
        |path cls w Hc Ha Hs Hi]; simpl.
  - apply evolves_refl.
  - by apply evolves_frame.
  - by apply evolves_frame.
  - by apply evolves_frame.
  - unfold evolves. split_and!; simpl; try done.
    { by apply insert_subseteq. }
    intros [Hal Hcr]. split; simpl.
    + intros m c. rewrite lookup_insert. case_decide as Hm.
      * subst m. intros _. by rewrite Ha.
      * apply Hal.
    + intros m. rewrite created_for_app, Hcr.
      rewrite lookup_insert. unfold created_for. simpl.
      case_decide as Hm.
      * subst m. rewrite Hc, String.eqb_refl. done.
      * assert (String.eqb m n = false) as ->.
        { apply String.eqb_neq. congruence. }
        by rewrite app_nil_r.
Qed.

Create HintDb preserves.

Ltac preserve_step :=
  first
    [ solve [auto 1 with preserves nocore]
    | apply preserves_ret
    | apply preserves_raise
    | apply preserves_lift
    | apply preserves_lift_world
    | apply preserves_get_registry
    | apply preserves_get_serializer
    | apply preserves_emit; reflexivity
    | apply preserves_bind; [|intros ?]
    | apply preserves_try_except_else; [|intros ?|intros ?]
    | apply preserves_try_except; [|intros ?]
    | match goal with
      | |- preserves (if ?b then _ else _) => destruct b
      | |- preserves (match ?x with _ => _ end) => destruct x
      end ].

Ltac preserve := repeat preserve_step.

Lemma preserves_loads serializer data : preserves (_loads E serializer data).
Proof. unfold _loads. preserve. Qed.

Lemma preserves_call_model cls data : preserves (call_model E cls data).
Proof. unfold call_model. preserve. Qed.

#[local] Hint Resolve preserves_loads preserves_call_model : preserves.

Lemma preserves_loads_model typ serializer data :
  preserves (_loads_model E typ serializer data).
Proof.
  unfold _loads_model, typ_options_serializer, call_typ.
  destruct typ; preserve.
Qed.

#[local] Hint Resolve preserves_loads_model : preserves.

Lemma preserves_loads_body typ serializer data :
  preserves (loads_body E typ serializer data).
Proof.
  unfold loads_body, call_maybe_reconstruct.
  destruct (is_codec_hint typ); preserve.
Qed.

#[local] Hint Resolve preserves_loads_body : preserves.

Lemma preserves_loads_key typ key : preserves (loads_key E typ key).
Proof. unfold loads_key. preserve. Qed.

Lemma preserves_loads_value typ value : preserves (loads_value E typ value).
Proof. unfold loads_value. preserve. Qed.

Lemma preserves_dumps_key topic key serializer :
  preserves (dumps_key E topic key serializer).
Proof.
  unfold dumps_key, call_model_dumps, call_codec_dumps.
  apply preserves_bind; [preserve|]. intros self.
  destruct key; preserve.
Qed.

Lemma preserves_dumps_value topic value serializer :
  preserves (dumps_value E topic value serializer).
Proof.
  unfold dumps_value, call_model_dumps, call_codec_dumps.
  apply preserves_bind; [preserve|]. intros self.
  destruct value; preserve.
Qed.

Lemma run_evolves c st : evolves st (run E c st).
Proof.
  destruct c; simpl.
  - apply preserves_loads_key.
  - apply preserves_loads_value.
  - apply preserves_dumps_key.
  - apply preserves_dumps_value.
  - apply preserves_get_serializer.
Qed.

Lemma fresh_inv key_ser value_ser w :
  registry_inv (fresh_state E key_ser value_ser w).
Proof. split; simpl; intros n; [intros c|]; by rewrite lookup_empty. Qed.

Lemma reachable_inv st : reachable E st -> registry_inv st.
Proof.
  induction 1 as [ks vs w|st c _ IH].
  - apply fresh_inv.
  - by apply (run_evolves c st).
Qed.

(** A cached client is never dropped nor replaced. *)
Lemma evolves_lookup st st' n c :
  evolves st st' -> _override (reg st) !! n = Some c ->
  _override (reg st') !! n = Some c.
Proof. intros (_ & _ & Hsub & _) Hc. by eapply lookup_weaken. Qed.

End Lifetime.

(* ===================================================================== *)
(** ** The encoders                                                       *)
(* ===================================================================== *)

Section Encoders.

Context (E : Env).

Implicit Types (st : State E) (topic : string) (s arg : CodecArg).

Lemma emit_lift_world {A} ev (f : World E -> Result A * World E) st :
  (let* _ := emit E ev in lift_world f) st = client_call st ev f.
Proof.
  unfold bind, emit, lift_world, client_call, with_world, logged. simpl.
  by destruct (f (world st)).
Qed.

(** [dumps_value] as a dispatch on the serializer in force. *)
Lemma dumps_value_dispatch topic value arg st :
  let s := value_effective_serializer (reg st) value arg in
  dumps_value E topic value arg st
  = if truthy s then
      match _get_serializer E s st with
      | (Ok ser, st1) =>
          client_call st1 (EvClientDumpsValue ser topic value)
            (ser_dumps_value E ser topic value)
      | (Raise e, st1) =>
          if isinstance "KeyError" e then
            if is_model value then call_model_dumps E value s st1
            else pure_call st1 (EvCodecDumps s value) (codec_dumps E s value)
          else (Raise e, st1)
      end
    else (Ok value, st).
Proof.
  unfold dumps_value, get_registry, bind at 1, try_except_else.
  destruct value; simpl;
    match goal with
    | |- context [truthy ?s] => destruct (truthy s); [|reflexivity]
    end;
    match goal with
    | |- context [_get_serializer E ?s st] =>
        destruct (_get_serializer E s st) as [[c|e] st1]
    end; try apply emit_lift_world; reflexivity.
Qed.

(** [dumps_key] as a dispatch on the serializer in force. *)
Lemma dumps_key_dispatch topic key arg st :
  let s := key_effective_serializer (reg st) key in
  dumps_key E topic key arg st
  = if truthy s then
      match _get_serializer E s st with
      | (Ok ser, st1) =>
          client_call st1 (EvClientDumpsKey ser topic key)
            (ser_dumps_key E ser topic key)
      | (Raise e, st1) =>
          if isinstance "KeyError" e then
            if is_model key then call_model_dumps E key s st1
            else pure_call st1 (EvCodecDumps s key) (codec_dumps E s key)
          else (Raise e, st1)
      end
    else (Ok (if is_none key then VNone else want_bytes key), st).
Proof.
  unfold dumps_key, get_registry, bind at 1, try_except_else.
  destruct key; simpl;
    match goal with
    | |- context [truthy ?s] => destruct (truthy s); [|reflexivity]
    end;
    match goal with
    | |- context [_get_serializer E ?s st] =>
        destruct (_get_serializer E s st) as [[c|e] st1]
    end; try apply emit_lift_world; reflexivity.
Qed.

End Encoders.

Section EncoderChoice.

Context (E : Env).

Implicit Types (st : State E) (topic : string) (s arg : CodecArg).

(** The resolver never looks at the default serializers. *)
Lemma get_serializer_with_value_serializer name st vs :
  _get_serializer E name (with_value_serializer st vs)
  = (fst (_get_serializer E name st),
     with_value_serializer (snd (_get_serializer E name st)) vs).
Proof.
  destruct name as [|n|r]; try reflexivity.
  destruct (get_serializer_resolution E n st)
    as [c Hc|Hc Ha|path e Hc Ha Hs|path cls e w Hc Ha Hs Hi
        |path cls w Hc Ha Hs Hi]; cbn [fst snd].
  - exact (get_serializer_cached E n c (with_value_serializer st vs) Hc).
  - exact (get_serializer_unknown E n (with_value_serializer st vs) Hc Ha).
  - exact (get_serializer_import_error E n path e
             (with_value_serializer st vs) Hc Ha Hs).
  - exact (get_serializer_init_error E n path cls e w
             (with_value_serializer st vs) Hc Ha Hs Hi).
  - exact (get_serializer_fresh E n path cls w
             (with_value_serializer st vs) Hc Ha Hs Hi).
Qed.

Lemma dumps_value_with_value_serializer topic value arg st vs :
  value_effective_serializer (reg (with_value_serializer st vs)) value arg
  = value_effective_serializer (reg st) value arg ->
  dumps_value E topic value arg (with_value_serializer st vs)
  = (fst (dumps_value E topic value arg st),
     with_value_serializer (snd (dumps_value E topic value arg st)) vs).
Proof.
  intros Hs. rewrite !dumps_value_dispatch. cbv zeta. rewrite Hs.
  destruct (truthy _); [|reflexivity].
  rewrite get_serializer_with_value_serializer.
  destruct (_get_serializer E _ st) as [[c|e] st1]; simpl; [reflexivity|].
  destruct (isinstance "KeyError" e); [|reflexivity].
  destruct value; reflexivity.
Qed.

(** C1, as the code has it: for a value that is not a typed record,
    [dumps_value] takes its serializer from the [serializer] argument and
    never from the registry.  Without the argument the value is returned
    as it is and nothing is called; the outcome is the same whatever the
    default value serializer of the registry is; and with an argument that
    names no external client the result is that of the codec layer's
    [dumps] for that argument. *)
Theorem dumps_value_plain_uses_argument topic value arg st :
  is_model value = false ->
  dumps_value E topic value CNone st = (Ok value, st)
  /\ (forall vs,
        dumps_value E topic value arg (with_value_serializer st vs)
        = (fst (dumps_value E topic value arg st),
           with_value_serializer (snd (dumps_value E topic value arg st)) vs))
  /\ (truthy arg = true ->
      forall e st1,
        _get_serializer E arg st = (Raise e, st1) ->
        isinstance "KeyError" e = true ->
        dumps_value E topic value arg st
        = pure_call st1 (EvCodecDumps arg value) (codec_dumps E arg value)).
Proof.
  intros Hm. split_and!.
  - by destruct value.
  - intros vs. apply dumps_value_with_value_serializer. by destruct value.
  - intros Ht e st1 Hg He. rewrite dumps_value_dispatch. cbv zeta.
    assert (value_effective_serializer (reg st) value arg = arg) as ->
      by (by destruct value).
    by rewrite Ht, Hg, He, Hm.
Qed.

(** C3: the [serializer] argument of [dumps_key] has no effect: two calls
    that differ in it only give the same result and leave the same state.
    The serializer in force is the registry's [key_serializer], or for a
    typed record its own if it declares one. *)
Theorem dumps_key_ignores_serializer_argument topic key s1 s2 st :
  dumps_key E topic key s1 st = dumps_key E topic key s2 st
  /\ dumps_key E topic key s1 st
     = let s := key_effective_serializer (reg st) key in
       if truthy s then
         match _get_serializer E s st with
         | (Ok ser, st1) =>
             client_call st1 (EvClientDumpsKey ser topic key)
               (ser_dumps_key E ser topic key)
         | (Raise e, st1) =>
             if isinstance "KeyError" e then
               if is_model key then call_model_dumps E key s st1
               else pure_call st1 (EvCodecDumps s key) (codec_dumps E s key)
             else (Raise e, st1)
         end
       else (Ok (if is_none key then VNone else want_bytes key), st).
Proof. split; [reflexivity | apply dumps_key_dispatch]. Qed.

(** C9: a typed record whose class declares a serializer is encoded by
    [dumps_value] with that serializer, whatever the default value
    serializer of the registry and the [serializer] argument are; the
    default of the registry is used when the class declares none. *)
Theorem dumps_value_model_prefers_own_serializer topic cls data arg st :
  (truthy (options_serializer cls) = true ->
   dumps_value E topic (VModel cls data) arg st
   = model_value_encoding E (options_serializer cls) topic cls data st
   /\ forall vs,
       dumps_value E topic (VModel cls data) arg (with_value_serializer st vs)
       = (fst (dumps_value E topic (VModel cls data) arg st),
          with_value_serializer
            (snd (dumps_value E topic (VModel cls data) arg st)) vs))
  /\ (truthy (options_serializer cls) = false ->
      dumps_value E topic (VModel cls data) arg st
      = if truthy (value_serializer (reg st)) then
          model_value_encoding E (value_serializer (reg st)) topic cls data st
        else (Ok (VModel cls data), st)).
Proof.
  split; intros Ht.
  - split.
    + rewrite dumps_value_dispatch. simpl. unfold py_or. rewrite !Ht.
      reflexivity.
    + intros vs. apply dumps_value_with_value_serializer. simpl.
      unfold py_or. by rewrite Ht.
  - rewrite dumps_value_dispatch. simpl. unfold py_or. rewrite !Ht.
    reflexivity.
Qed.

End EncoderChoice.

(** With the defaults of [Registry()] and no alias for [json],
    [dumps_value("t", {"a": 1})] gives back the dictionary, not JSON
    bytes, and calls nothing. *)
Lemma dumps_value_default_not_applied :
  value_serializer (reg Demo.st0) = CStr "json"
  /\ override_classes Demo.env !! "json" = None
  /\ is_model Demo.dict_a1 = false
  /\ dumps_value Demo.env "t" Demo.dict_a1 CNone Demo.st0
     = (Ok Demo.dict_a1, Demo.st0)
  /\ fst (dumps_value Demo.env "t" Demo.dict_a1 CNone Demo.st0)
     <> Ok Demo.json_a1.
Proof. split_and!; try reflexivity. discriminate. Qed.

(** The JSON bytes come out when [json] is passed as the argument. *)
Example dumps_value_json_argument :
  fst (dumps_value Demo.env "t" Demo.dict_a1 (CStr "json") Demo.st0)
  = Ok Demo.json_a1.
Proof. reflexivity. Qed.

Lemma dumps_value_plain_uses_argument_witness :
  is_model Demo.dict_a1 = false
  /\ dumps_value Demo.env "t" Demo.dict_a1 CNone Demo.st0
     = (Ok Demo.dict_a1, Demo.st0)
  /\ dumps_value Demo.env "t" Demo.dict_a1 (CStr "json") Demo.st0
     = (Ok Demo.json_a1,
        logged Demo.st0 [EvGetAlias "json";
                         EvCodecDumps (CStr "json") Demo.dict_a1]).
Proof.
  split; [reflexivity|].
  destruct (dumps_value_plain_uses_argument Demo.env "t" Demo.dict_a1
              (CStr "json") Demo.st0 eq_refl) as (H1 & _ & H3).
  split; [exact H1|].
  exact (H3 eq_refl (KeyError (CStr "json"))
           (logged Demo.st0 [EvGetAlias "json"]) eq_refl eq_refl).
Defined.

(** A key serializer passed to [dumps_key] is not used: the key comes back
    coerced to bytes, not as JSON. *)
Example dumps_key_json_argument_ignored :
  fst (dumps_key Demo.env "t" (VStr "k") (CStr "json") Demo.st0)
  = Ok (VBytes (list_byte_of_string "k")).
Proof. reflexivity. Qed.

Lemma dumps_value_model_prefers_own_serializer_witness :
  truthy (options_serializer Demo.RawPoint) = true
  /\ truthy (options_serializer Demo.Point) = false
  /\ fst (dumps_value Demo.env "t" Demo.raw_point CNone Demo.st0)
     = Ok Demo.dict_a1
  /\ fst (dumps_value Demo.env "t" Demo.point CNone Demo.st0)
     = Ok Demo.json_a1.
Proof.
  split; [reflexivity|]. split; [reflexivity|]. split.
  - destruct (dumps_value_model_prefers_own_serializer Demo.env "t"
                Demo.RawPoint Demo.dict_a1 CNone Demo.st0) as [H _].
    destruct (H eq_refl) as [-> _]. reflexivity.
  - destruct (dumps_value_model_prefers_own_serializer Demo.env "t"
                Demo.Point Demo.dict_a1 CNone Demo.st0) as [_ H].
    unfold Demo.point. rewrite (H eq_refl). reflexivity.
Defined.

(* ===================================================================== *)
(** ** The decoders                                                       *)
(* ===================================================================== *)

Section Decoders.

Context (E : Env).

Implicit Types (st : State E) (typ : Typ) (s : CodecArg).

(** [_loads] as a dispatch on the outcome of the client lookup. *)
Lemma loads_dispatch s data st :
  _loads E s data st
  = match _get_serializer E s st with
    | (Ok ser, st1) =>
        client_call st1 (EvClientLoads ser data) (ser_loads E ser data)
    | (Raise e, st1) =>
        if isinstance "KeyError" e then
          pure_call st1 (EvCodecLoads s data) (codec_loads E s data)
        else (Raise e, st1)
    end.
Proof.
  unfold _loads, try_except_else.
  destruct (_get_serializer E s st) as [[c|e] st1];
    [apply emit_lift_world | reflexivity].
Qed.

Lemma loads_key_unfold typ key st :
  is_none key = false -> typ_is_none typ = false ->
  loads_key E typ key st
  = match loads_body E typ (key_serializer (reg st)) key st with
    | (Ok v, st') => (Ok v, st')
    | (Raise e, st') => (Raise (as_decode_error mro_KeyDecodeError e), st')
    end.
Proof.
  intros Hk Ht. unfold loads_key. rewrite Hk, Ht. simpl.
  unfold try_except, try_except_else, bind, get_registry, as_decode_error.
  destruct (loads_body _ _ _ _ _) as [[v|e] st']; [reflexivity|].
  by destruct (isinstance "Exception" e).
Qed.

Lemma loads_value_unfold typ value st :
  is_none value = false ->
  loads_value E typ value st
  = match loads_body E typ (value_serializer (reg st)) value st with
    | (Ok v, st') => (Ok v, st')
    | (Raise e, st') => (Raise (as_decode_error mro_ValueDecodeError e), st')
    end.
Proof.
  intros Hv. unfold loads_value. rewrite Hv.
  unfold try_except, try_except_else, bind, get_registry, as_decode_error.
  destruct (loads_body _ _ _ _ _) as [[v|e] st']; [reflexivity|].
  by destruct (isinstance "Exception" e).
Qed.




(** C6: [loads_key(None, b)] returns [b] and [loads_key(t, None)] returns
    [None]; in both cases the state is left as it was: no codec and no
    client has been called. *)
Theorem loads_key_short_circuit :
  (forall b st, loads_key E TNone (VBytes b) st = (Ok (VBytes b), st))
  /\ (forall typ st, loads_key E typ VNone st = (Ok VNone, st)).
Proof. split; reflexivity. Qed.



End Decoders.

(* ===================================================================== *)
(** ** The cache of external clients                                      *)
(* ===================================================================== *)

Section Cache.

Context (E : Env).

Implicit Types (st : State E) (n : string) (name : CodecArg).

(** A client that was returned is the one in the cache. *)
Lemma get_serializer_ok_cached name c st st1 :
  _get_serializer E name st = (Ok c, st1) ->
  exists n, name = CStr n /\ _override (reg st1) !! n = Some c.
Proof.
  destruct name as [|n|r]; [discriminate| |discriminate].
  intros H. exists n. split; [reflexivity|].
  destruct (get_serializer_resolution E n st)
    as [c' Hc|Hc Ha|path e Hc Ha Hs|path cls e w Hc Ha Hs Hi
        |path cls w Hc Ha Hs Hi]; inversion H; subst; simpl.
  - done.
  - by rewrite lookup_insert_eq.
Qed.

(** The trace of a first successful resolution. *)
Lemma get_serializer_first n c st st1 :
  _get_serializer E (CStr n) st = (Ok c, st1) ->
  _override (reg st) !! n = None ->
  exists path cls,
    override_classes E !! n = Some path
    /\ symbol_by_name E path = Ok cls
    /\ c = {| client_id := next_id st; client_class := cls |}
    /\ trace st1
       = (trace st ++ [EvGetAlias n; EvSymbolByName path;
                       EvCallClass cls (next_id st); EvCreated n c])%list.
Proof.
  intros H Hnone.
  destruct (get_serializer_resolution E n st)
    as [c' Hc|Hc Ha|path e Hc Ha Hs|path cls e w Hc Ha Hs Hi
        |path cls w Hc Ha Hs Hi]; inversion H; subst; simpl.
  - congruence.
  - by exists path, cls.
Qed.


(** C4: in any state of the life of a registry, a call of
    [_get_serializer] that returns a client is followed by calls that
    return the very same client and call nothing; a first resolution
    calls the alias table, the plugin resolver and the constructor once
    each; after it exactly one client has ever been created for the name.
    At any time the clients ever created for a name are the cached one, if
    any, so at most one; and no method removes or replaces a cache
    entry. *)
Theorem get_serializer_memoizes st :
  reachable E st ->
  (forall name c st1,
     _get_serializer E name st = (Ok c, st1) ->
     _get_serializer E name st1 = (Ok c, st1)
     /\ exists n,
         name = CStr n
         /\ created_for n (trace st1) = [c]
         /\ (_override (reg st) !! n = None ->
             exists path cls,
               override_classes E !! n = Some path
               /\ symbol_by_name E path = Ok cls
               /\ trace st1
                  = (trace st ++ [EvGetAlias n; EvSymbolByName path;
                                  EvCallClass cls (client_id c);
                                  EvCreated n c])%list))
  /\ (forall n,
        created_for n (trace st) = option_list (_override (reg st) !! n)
        /\ length (created_for n (trace st)) <= 1)
  /\ (forall call n c,
        _override (reg st) !! n = Some c ->
        _override (reg (run E call st)) !! n = Some c).
Proof.
  intros Hr. pose proof (reachable_inv E st Hr) as Hinv. split_and!.
  - intros name c st1 H.
    destruct (get_serializer_ok_cached name c st st1 H) as (n & -> & Hc1).
    split; [by apply get_serializer_cached|].
    exists n. split; [reflexivity|]. split.
    + pose proof (preserves_get_serializer E (CStr n) st) as Hev.
      rewrite H in Hev. destruct Hev as (_ & _ & _ & Hi).
      destruct (Hi Hinv) as [_ Hcr]. simpl in Hcr.
      by rewrite Hcr, Hc1.
    + intros Hnone.
      destruct (get_serializer_first n c st st1 H Hnone)
        as (path & cls & Ha & Hs & -> & Ht).
      by exists path, cls.
  - intros n. destruct Hinv as [_ Hcr]. rewrite Hcr.
    split; [reflexivity|]. destruct (_ !! n); simpl; lia.
  - intros call n c. apply evolves_lookup, run_evolves.
Qed.

(** C5, as the code has it: in any state of the life of a registry,
    [_get_serializer] raises [KeyError(name)] whenever its argument is not
    a string or is a string that the alias table does not have; with
    plugins that do not raise [KeyError] themselves these are the only
    cases in which a [KeyError] leaves it.  Whenever a [KeyError] leaves
    it, whatever its origin, [_loads], [dumps_key] and [dumps_value] catch
    it and give the outcome of the fallback: the codec layer, or for a
    typed record its own [dumps]. *)
Theorem lookup_failure_is_internal st :
  (reachable E st ->
   forall name,
     ((forall n, name <> CStr n)
      \/ (exists n, name = CStr n /\ override_classes E !! n = None) ->
      exists e st1,
        _get_serializer E name st = (Raise e, st1)
        /\ e = KeyError name /\ isinstance "KeyError" e = true)
     /\ (plugins_raise_no_KeyError E ->
         (exists e st1, _get_serializer E name st = (Raise e, st1)
                        /\ isinstance "KeyError" e = true) ->
         (forall n, name <> CStr n)
         \/ exists n, name = CStr n /\ override_classes E !! n = None))
  /\ (forall name e st1,
        _get_serializer E name st = (Raise e, st1) ->
        isinstance "KeyError" e = true ->
        (forall data,
           _loads E name data st
           = pure_call st1 (EvCodecLoads name data) (codec_loads E name data))
        /\ (forall topic key arg,
              key_effective_serializer (reg st) key = name ->
              truthy name = true ->
              dumps_key E topic key arg st
              = if is_model key then call_model_dumps E key name st1
                else pure_call st1 (EvCodecDumps name key)
                       (codec_dumps E name key))
        /\ (forall topic value arg,
              value_effective_serializer (reg st) value arg = name ->
              truthy name = true ->
              dumps_value E topic value arg st
              = if is_model value then call_model_dumps E value name st1
                else pure_call st1 (EvCodecDumps name value)
                       (codec_dumps E name value))).
Proof.
  split.
  - intros Hr name. pose proof (reachable_inv E st Hr) as [Hal _].
    split.
    + intros [Hn|(n & -> & Ha)].
      * exists (KeyError name), st. by rewrite get_serializer_not_str.
      * exists (KeyError (CStr n)), (logged st [EvGetAlias n]).
        split; [|by split]. apply get_serializer_unknown; [|done].
        destruct (_override (reg st) !! n) as [c|] eqn:Hc; [|done].
        destruct (Hal n c Hc) as [p Hp]. congruence.
    + intros [Himp Hinit] (e & st1 & H & He). destruct name as [|n|r];
        [by left | | by left].
      right. exists n. split; [reflexivity|].
      destruct (get_serializer_resolution E n st)
        as [c' Hc|Hc Ha|path e' Hc Ha Hs|path cls e' w Hc Ha Hs Hi
            |path cls w Hc Ha Hs Hi]; inversion H; subst.
      * done.
      * rewrite (Himp _ _ Hs) in He. discriminate.
      * rewrite (Hinit _ _ _ _ _ Hi) in He. discriminate.
  - intros name e st1 H He. split_and!.
    + intros data. by rewrite loads_dispatch, H, He.
    + intros topic key arg Hs Ht. rewrite dumps_key_dispatch. cbv zeta.
      by rewrite Hs, Ht, H, He.
    + intros topic value arg Hs Ht. rewrite dumps_value_dispatch. cbv zeta.
      by rewrite Hs, Ht, H, He.
Qed.


End Cache.

(* ===================================================================== *)
(** ** The statements at work on the demonstration registry              *)
(* ===================================================================== *)


Lemma get_serializer_memoizes_witness :
  reachable Demo.env Demo.st0
  /\ exists c st1,
      _get_serializer Demo.env (CStr "avro") Demo.st0 = (Ok c, st1)
      /\ _get_serializer Demo.env (CStr "avro") st1 = (Ok c, st1).
Proof.
  split; [apply reachable_fresh|].
  destruct (get_serializer_memoizes Demo.env Demo.st0
              (reachable_fresh Demo.env CNone (CStr "json") 0)) as (H & _).
  eexists. eexists. split; [reflexivity|].
  exact (proj1 (H (CStr "avro") _ _ eq_refl)).
Defined.

Lemma demo_plugins_raise_no_KeyError : plugins_raise_no_KeyError Demo.env.
Proof. split; intros; discriminate. Defined.

Lemma lookup_failure_is_internal_witness :
  reachable Demo.env Demo.st0
  /\ plugins_raise_no_KeyError Demo.env
  /\ override_classes Demo.env !! "json" = None
  /\ (exists e st1,
        _get_serializer Demo.env (CStr "json") Demo.st0 = (Raise e, st1)
        /\ e = KeyError (CStr "json") /\ isinstance "KeyError" e = true)
  /\ ((exists e st1,
         _get_serializer Demo.env (CStr "json") Demo.st0 = (Raise e, st1)
         /\ isinstance "KeyError" e = true) ->
      (forall n, CStr "json" <> CStr n)
      \/ exists n, CStr "json" = CStr n
                   /\ override_classes Demo.env !! n = None)
  /\ dumps_value Demo.env "t" Demo.dict_a1 (CStr "json") Demo.st0
     = pure_call (logged Demo.st0 [EvGetAlias "json"])
         (EvCodecDumps (CStr "json") Demo.dict_a1) (Ok Demo.json_a1).
Proof.
  split; [apply reachable_fresh|].
  split; [exact demo_plugins_raise_no_KeyError|].
  split; [reflexivity|].
  destruct (lookup_failure_is_internal Demo.env Demo.st0) as [H1 H2].
  destruct (H1 (reachable_fresh Demo.env CNone (CStr "json") 0) (CStr "json"))
    as [Hfail Honly].
  split; [|split].
  - apply Hfail. right. exists "json". split; reflexivity.
  - exact (Honly demo_plugins_raise_no_KeyError).
  - destruct (H2 (CStr "json") (KeyError (CStr "json"))
                (logged Demo.st0 [EvGetAlias "json"]) eq_refl eq_refl)
      as (_ & _ & H).
    exact (H "t" Demo.dict_a1 (CStr "json") eq_refl eq_refl).
Defined.

(** The class behind the registered alias [needs_env] fails at import with
    a [KeyError]: [_get_serializer] raises a [KeyError] although its
    argument is a string that the alias table has. *)
Lemma get_serializer_KeyError_for_registered_alias :
  reachable Demo.broken_env Demo.broken_st0
  /\ override_classes Demo.broken_env !! "needs_env"
     = Some Demo.needs_env_path
  /\ (exists e st1,
        _get_serializer Demo.broken_env (CStr "needs_env") Demo.broken_st0
        = (Raise e, st1)
        /\ isinstance "KeyError" e = true)
  /\ ~ ((forall n, CStr "needs_env" <> CStr n)
        \/ exists n, CStr "needs_env" = CStr n
                     /\ override_classes Demo.broken_env !! n = None).
Proof.
  split; [apply reachable_fresh|]. split; [reflexivity|]. split.
  - eexists. eexists. split; reflexivity.
  - intros [Hn|(n & [= <-] & Ha)].
    + by apply (Hn "needs_env").
    + discriminate Ha.
Qed.





(** Two encodings and one decoding through the [avro] client: it is built
    once, on the first use, and asked three times. *)
Example avro_client_created_once :
  let st3 :=
    run Demo.env (CallLoadsValue (TModel Demo.AvroPoint) Demo.sub_bytes)
      (run Demo.env (CallDumpsKey "t" Demo.avro_point CNone)
         (run Demo.env (CallDumpsValue "t" Demo.avro_point CNone) Demo.st0))
  in
  created_for "avro" (trace st3)
  = [{| client_id := 0; client_class := Demo.avro_path |}]
  /\ next_id st3 = 1 /\ world st3 = 3.
Proof. split_and!; reflexivity. Qed.

(** A class that is not a typed record, given as type hint, fails in the
    [try] block and so with a decode error. *)
Example loads_key_bytes_class :
  fst (loads_key Demo.env (TClass "bytes") Demo.sub_bytes Demo.st0)
  = Raise (decode_error mro_KeyDecodeError
             (AttributeError
                "type object 'bytes' has no attribute '_options'")).
Proof. reflexivity. Qed.

(* ===================================================================== *)
(** ** How a method call changes the registry                             *)
(* ===================================================================== *)

Section Steps.

Context (E : Env).

Implicit Types (st : State E) (n : string) (name : CodecArg).

(** X1: [_get_serializer] caches successes only.  When it raises, whatever
    the reason, the registry object is as before the call; when it returns
    a client, the cache is the old one with that client under the name,
    and the defaults are untouched. *)
Theorem get_serializer_caches_successes_only name st :
  match _get_serializer E name st with
  | (Raise _, st1) => reg st1 = reg st
  | (Ok c, st1) =>
      exists n,
        name = CStr n
        /\ _override (reg st1) = <[n := c]> (_override (reg st))
        /\ key_serializer (reg st1) = key_serializer (reg st)
        /\ value_serializer (reg st1) = value_serializer (reg st)
  end.
Proof.
  destruct name as [|n|r]; [reflexivity| |reflexivity].
  destruct (get_serializer_resolution E n st)
    as [c Hc|Hc Ha|path e Hc Ha Hs|path cls e w Hc Ha Hs Hi
        |path cls w Hc Ha Hs Hi]; try reflexivity.
  - exists n. split_and!; try reflexivity. symmetry. by apply insert_id.
  - exists n. by split_and!.
Qed.

Lemma frame_refl st : frame st st.
Proof. by split. Qed.

Lemma frame_trans st1 st2 st3 : frame st1 st2 -> frame st2 st3 -> frame st1 st3.
Proof. intros [H1 H2] [H3 H4]. split; congruence. Qed.

Lemma registry_step_frame st1 st2 st3 :
  registry_step st1 st2 -> frame st2 st3 -> registry_step st1 st3.
Proof.
  intros [[Hr Hn]|(n & path & c & Hc & Ha & Hs & Hi & Hr & Hn)] [Hr' Hn'].
  - left. split; [congruence|]. rewrite Hn'. exact Hn.
  - right. exists n, path, c. split_and!; try done; congruence.
Qed.

Lemma frames_ret {A} (a : A) : frames (E:=E) (ret a).
Proof. intros st. apply frame_refl. Qed.

Lemma frames_raise {A} e : frames (E:=E) (A:=A) (raise e).
Proof. intros st. apply frame_refl. Qed.

Lemma frames_lift {A} (r : Result A) : frames (E:=E) (lift r).
Proof. intros st. apply frame_refl. Qed.

Lemma frames_emit ev : frames (emit E ev).
Proof. intros st. by split. Qed.

Lemma frames_lift_world {A} (f : World E -> Result A * World E) :
  frames (lift_world f).
Proof. intros st. unfold lift_world. by destruct (f (world st)). Qed.

Lemma frames_bind {A B} (m : M E A) (k : A -> M E B) :
  frames m -> (forall a, frames (k a)) -> frames (bind m k).
Proof.
  intros Hm Hk st. unfold bind. specialize (Hm st).
  destruct (m st) as [[a|e] st']; simpl in *; [|done].
  eapply frame_trans; [exact Hm | apply Hk].
Qed.

Lemma stateless_get_registry : stateless (get_registry E).
Proof. by intros st. Qed.

Lemma stateless_typ_options_serializer typ :
  stateless (typ_options_serializer E typ).
Proof. intros st. by destruct typ. Qed.

Lemma one_lookup_frames {A} (m : M E A) : frames m -> one_lookup m.
Proof.
  intros Hm st. destruct (Hm st) as [Hr Hn]. left. split; [done | by left].
Qed.

Lemma one_lookup_get_serializer name : one_lookup (_get_serializer E name).
Proof.
  intros st. destruct name as [|n|r];
    try (left; split; [reflexivity | by left]).
  destruct (get_serializer_resolution E n st)
    as [c Hc|Hc Ha|path e Hc Ha Hs|path cls e w Hc Ha Hs Hi
        |path cls w Hc Ha Hs Hi]; simpl.
  - left. split; [reflexivity | by left].
  - left. split; [reflexivity | by left].
  - left. split; [reflexivity | by left].
  - left. split; [reflexivity | by right].
  - right. exists n, path, {| client_id := next_id st; client_class := cls |}.
    by split_and!.
Qed.

Lemma one_lookup_after_stateless {A B} (m : M E A) (k : A -> M E B) :
  stateless m -> (forall a, one_lookup (k a)) -> one_lookup (bind m k).
Proof.
  intros Hm Hk st. unfold bind. specialize (Hm st).
  destruct (m st) as [[a|e] st']; simpl in *; subst st'.
  - apply Hk.
  - left. split; [reflexivity | by left].
Qed.

Lemma one_lookup_then_frames {A B} (m : M E A) (k : A -> M E B) :
  one_lookup m -> (forall a, frames (k a)) -> one_lookup (bind m k).
Proof.
  intros Hm Hk st. unfold bind. specialize (Hm st).
  destruct (m st) as [[a|e] st']; simpl in *; [|done].
  eapply registry_step_frame; [exact Hm | apply Hk].
Qed.

Lemma one_lookup_try_except_else {A B} (body : M E A) catches
    (handler : Exn -> M E B) (orelse : A -> M E B) :
  one_lookup body -> (forall e, frames (handler e)) ->
  (forall a, frames (orelse a)) ->
  one_lookup (try_except_else body catches handler orelse).
Proof.
  intros Hb Hh Ho st. unfold try_except_else. specialize (Hb st).
  destruct (body st) as [[a|e] st']; simpl in *.
  - eapply registry_step_frame; [exact Hb | apply Ho].
  - destruct (catches e); [|done].
    eapply registry_step_frame; [exact Hb | apply Hh].
Qed.

Create HintDb frames.

#[local] Hint Resolve frames_ret frames_raise frames_lift frames_emit
  frames_lift_world : frames.

Ltac framing :=
  repeat first
    [ solve [auto 1 with frames nocore]
    | apply frames_bind; [|intros ?]
    | match goal with
      | |- frames (match ?x with _ => _ end) => destruct x
      end ].

Lemma frames_call_model cls data : frames (call_model E cls data).
Proof. unfold call_model. framing. Qed.

Lemma frames_call_typ typ data : frames (call_typ E typ data).
Proof. destruct typ; simpl; try apply frames_raise. apply frames_call_model. Qed.

Lemma frames_call_model_dumps v s : frames (call_model_dumps E v s).
Proof. unfold call_model_dumps. destruct v; framing. Qed.

Lemma frames_call_codec_dumps s v : frames (call_codec_dumps E s v).
Proof. unfold call_codec_dumps. framing. Qed.

Lemma frames_call_maybe_reconstruct data :
  frames (call_maybe_reconstruct E data).
Proof. unfold call_maybe_reconstruct. framing. Qed.

Lemma one_lookup_loads s data : one_lookup (_loads E s data).
Proof.
  unfold _loads. apply one_lookup_try_except_else.
  - apply one_lookup_get_serializer.
  - intros e. framing.
  - intros c. framing.
Qed.

Lemma one_lookup_loads_model typ s data : one_lookup (_loads_model E typ s data).
Proof.
  unfold _loads_model. apply one_lookup_after_stateless.
  { apply stateless_typ_options_serializer. }
  intros own. apply one_lookup_then_frames; [apply one_lookup_loads|].
  intros d. apply frames_bind; [apply frames_emit|]. intros _.
  apply frames_bind; [apply frames_lift|]. intros [cls|].
  - apply frames_call_model.
  - apply frames_call_typ.
Qed.

Lemma one_lookup_loads_body typ s data : one_lookup (loads_body E typ s data).
Proof.
  unfold loads_body. destruct (is_codec_hint typ).
  - apply one_lookup_then_frames; [apply one_lookup_loads|].
    intros d. apply frames_call_maybe_reconstruct.
  - apply one_lookup_loads_model.
Qed.

Lemma one_lookup_decoder typ data (sel : Registry -> CodecArg) mro :
  one_lookup
    (try_except
       (let* self := get_registry E in loads_body E typ (sel self) data)
       (isinstance "Exception")
       (fun exc => raise (decode_error mro exc))).
Proof.
  apply one_lookup_try_except_else.
  - apply one_lookup_after_stateless; [apply stateless_get_registry|].
    intros self. apply one_lookup_loads_body.
  - intros e. apply frames_raise.
  - intros a. apply frames_ret.
Qed.

Lemma one_lookup_loads_key typ key : one_lookup (loads_key E typ key).
Proof.
  unfold loads_key. destruct (_ || _).
  - apply one_lookup_frames, frames_ret.
  - apply (one_lookup_decoder typ key key_serializer).
Qed.

Lemma one_lookup_loads_value typ value : one_lookup (loads_value E typ value).
Proof.
  unfold loads_value. destruct (is_none value).
  - apply one_lookup_frames, frames_ret.
  - apply (one_lookup_decoder typ value value_serializer).
Qed.

Lemma one_lookup_encode s (b : bool) v other (client : Client -> M E Value) :
  (forall c, frames (client c)) ->
  one_lookup
    (if truthy s then
       try_except_else (_get_serializer E s) (isinstance "KeyError")
         (fun _ => if b then call_model_dumps E v s
                   else call_codec_dumps E s v)
         client
     else ret (E:=E) other).
Proof.
  intros Hc. destruct (truthy s).
  - apply one_lookup_try_except_else;
      [apply one_lookup_get_serializer | | exact Hc].
    intros e. destruct b;
      [apply frames_call_model_dumps | apply frames_call_codec_dumps].
  - apply one_lookup_frames, frames_ret.
Qed.

Lemma one_lookup_dumps_value topic value arg :
  one_lookup (dumps_value E topic value arg).
Proof.
  unfold dumps_value. apply one_lookup_after_stateless;
    [apply stateless_get_registry|].
  intros self. destruct value; cbv beta iota;
    first [ apply (one_lookup_encode _ false)
          | apply (one_lookup_encode _ true) ]; intros c; framing.
Qed.

Lemma one_lookup_dumps_key topic key arg :
  one_lookup (dumps_key E topic key arg).
Proof.
  unfold dumps_key. apply one_lookup_after_stateless;
    [apply stateless_get_registry|].
  intros self. destruct key; cbv beta iota zeta;
    first [ apply (one_lookup_encode _ false)
          | apply (one_lookup_encode _ true) ]; intros c; framing.
Qed.

Lemma run_registry_step call st : registry_step st (run E call st).
Proof.
  destruct call; simpl.
  - apply one_lookup_loads_key.
  - apply one_lookup_loads_value.
  - apply one_lookup_dumps_key.
  - apply one_lookup_dumps_value.
  - apply one_lookup_get_serializer.
Qed.

(** X2: a call of any method changes the registry in one of two ways
    only.  Either the registry object is as before (and at most one
    object was allocated, for a client whose constructor failed), or
    exactly one client was added to the cache, under a name that was not
    cached, as a new object of the class registered for that name.  The
    default serializers never change. *)
Theorem method_call_adds_at_most_one_client call st :
  registry_step st (run E call st)
  /\ key_serializer (reg (run E call st)) = key_serializer (reg st)
  /\ value_serializer (reg (run E call st)) = value_serializer (reg st)
  /\ next_id st <= next_id (run E call st) <= S (next_id st)
  /\ size (_override (reg (run E call st))) <= S (size (_override (reg st))).
Proof.
  pose proof (run_registry_step call st) as Hstep.
  split; [exact Hstep|].
  destruct Hstep as [[Hr Hn]|(n & path & c & Hc & Ha & Hs & Hi & Hr & Hn)].
  - rewrite Hr. split_and!; try done; destruct Hn; lia.
  - rewrite Hr, Hn. simpl. split_and!; try done; try lia.
    by rewrite map_size_insert_None.
Qed.

Lemma fresh_cache_well_formed ks vs w :
  cache_well_formed (fresh_state E ks vs w).
Proof.
  split; simpl.
  - intros n c. by rewrite lookup_empty.
  - intros n1 n2 c1 c2. by rewrite lookup_empty.
Qed.

Lemma registry_step_cache_well_formed st st' :
  registry_step st st' -> cache_well_formed st -> cache_well_formed st'.
Proof.
  intros [[Hr Hn]|(n & path & c & Hc & Ha & Hs & Hi & Hr & Hn)] [Hw Hinj].
  - split; rewrite Hr.
    + intros m c Hm. destruct (Hw m c Hm) as [Hlt Hp].
      split; [destruct Hn; lia | exact Hp].
    + exact Hinj.
  - split; rewrite Hr; simpl.
    + intros m c'. rewrite lookup_insert. case_decide as Hm.
      * intros [= <-]. subst m. split; [lia|]. by exists path.
      * intros Hm'. destruct (Hw m c' Hm') as [Hlt Hp].
        split; [lia | exact Hp].
    + intros n1 n2 c1 c2. rewrite !lookup_insert.
      repeat case_decide; subst.
      * done.
      * intros [= <-] H2 Heq. destruct (Hw n2 c2 H2) as [Hlt _]. lia.
      * intros H1 [= <-] Heq. destruct (Hw n1 c1 H1) as [Hlt _]. lia.
      * apply Hinj.
Qed.

(** X3: all its life the cache of a registry holds, under each name, an
    object that this registry allocated, of the class that the alias table
    and [symbol_by_name] give for that name; and two names never share a
    client object. *)
Theorem reachable_cache_well_formed st :
  reachable E st -> cache_well_formed st.
Proof.
  induction 1 as [ks vs w|st c _ IH].
  - apply fresh_cache_well_formed.
  - eapply registry_step_cache_well_formed; [|exact IH].
    apply run_registry_step.
Qed.

End Steps.

(* ===================================================================== *)
(** ** Round trips through the codec layer                                *)
(* ===================================================================== *)

Section RoundTrips.

Context (E : Env).

Implicit Types (st : State E) (s : CodecArg) (topic : string).

Lemma logged_empty st : logged st [] = st.
Proof. destruct st. unfold logged. simpl. by rewrite app_nil_r. Qed.

Lemma logged_logged st (evs1 evs2 : list Event) :
  logged (logged st evs1) evs2 = logged st (evs1 ++ evs2).
Proof. unfold logged. simpl. by rewrite app_assoc. Qed.

(** A name that is not an alias is never in the cache. *)
Lemma no_client_not_cached st n :
  reachable E st -> override_classes E !! n = None ->
  _override (reg st) !! n = None.
Proof.
  intros Hr Ha. destruct (reachable_inv E st Hr) as [Hal _].
  destruct (_override (reg st) !! n) as [c|] eqn:Hc; [|done].
  destruct (Hal n c Hc) as [p Hp]. congruence.
Qed.

Lemma get_serializer_not_cached s st :
  (forall n, s = CStr n -> _override (reg st) !! n = None) ->
  no_client E s ->
  _get_serializer E s st = (Raise (KeyError s), logged st (lookup_events s)).
Proof.
  intros Hc Hs. destruct s as [|n|r]; simpl.
  - by rewrite logged_empty.
  - apply get_serializer_unknown; [by apply Hc | exact Hs].
  - by rewrite logged_empty.
Qed.

Lemma get_serializer_no_client s st :
  reachable E st -> no_client E s ->
  _get_serializer E s st = (Raise (KeyError s), logged st (lookup_events s)).
Proof.
  intros Hr Hs. apply get_serializer_not_cached; [|exact Hs].
  intros n ->. by apply no_client_not_cached.
Qed.

(** The same lookup fails the same way after steps that only log. *)
Lemma get_serializer_no_client_logged s st evs :
  reachable E st -> no_client E s ->
  _get_serializer E s (logged st evs)
  = (Raise (KeyError s), logged st (evs ++ lookup_events s)).
Proof.
  intros Hr Hs. rewrite <- logged_logged.
  apply get_serializer_not_cached; [|exact Hs].
  intros n ->. simpl. by apply no_client_not_cached.
Qed.

Lemma loads_body_codec_path typ s data st e st1 d v :
  is_codec_hint typ = true ->
  _get_serializer E s st = (Raise e, st1) ->
  isinstance "KeyError" e = true ->
  codec_loads E s data = Ok d ->
  maybe_reconstruct E d = Ok v ->
  loads_body E typ s data st
  = (Ok v, logged st1 [EvCodecLoads s data; EvMaybeReconstruct d]).
Proof.
  intros Ht Hg He Hc Hr. unfold loads_body. rewrite Ht.
  unfold bind at 1. rewrite loads_dispatch, Hg, He. unfold pure_call.
  rewrite Hc. unfold call_maybe_reconstruct, bind, emit, lift. simpl.
  rewrite Hr. unfold logged. simpl. by rewrite <- app_assoc.
Qed.


(** X4: a value that is not a typed record, encoded by [dumps_value] with
    the serializer [s] passed as argument and decoded by
    [loads_value(None, ...)] of a registry whose default value serializer
    is [s], comes back as it was, provided [s] names no external client,
    the codec layer itself round-trips the value and [_maybe_reconstruct]
    leaves the value as it is.  The two calls call the codec layer and
    [_maybe_reconstruct] only: cache and world are as before. *)
Theorem plain_value_round_trip topic v s b st :
  reachable E st -> no_client E s -> truthy s = true ->
  value_serializer (reg st) = s -> is_model v = false ->
  codec_dumps E s v = Ok b -> is_none b = false ->
  codec_loads E s b = Ok v -> maybe_reconstruct E v = Ok v ->
  dumps_value E topic v s st
  = (Ok b, logged st (lookup_events s ++ [EvCodecDumps s v]))
  /\ loads_value E TNone b (snd (dumps_value E topic v s st))
     = (Ok v,
        logged st
          ((lookup_events s ++ [EvCodecDumps s v])
           ++ lookup_events s ++ [EvCodecLoads s b; EvMaybeReconstruct v])).
Proof.
  intros Hr Hs Ht Hvs Hm Hd Hb Hl Hrec.
  assert (dumps_value E topic v s st
          = (Ok b, logged st (lookup_events s ++ [EvCodecDumps s v]))) as Hdv.
  { rewrite dumps_value_dispatch. cbv zeta.
    assert (value_effective_serializer (reg st) v s = s) as ->
      by (by destruct v).
    rewrite Ht, (get_serializer_no_client s st Hr Hs). simpl.
    rewrite Hm. unfold pure_call. by rewrite Hd, logged_logged. }
  split; [exact Hdv|]. rewrite Hdv. simpl.
  rewrite loads_value_unfold by exact Hb. simpl. rewrite Hvs.
  rewrite (loads_body_codec_path TNone s b _ (KeyError s)
             (logged st ((lookup_events s ++ [EvCodecDumps s v])
                         ++ lookup_events s)) v v);
    try done.
  - by rewrite logged_logged, <- !app_assoc.
  - by apply get_serializer_no_client_logged.
Qed.



End RoundTrips.

(* ===================================================================== *)
(** ** Which serializer decides                                           *)
(* ===================================================================== *)

Section Selection.

Context (E : Env).

Implicit Types (st : State E) (s : CodecArg) (topic : string).

Lemma commutes_ret {A} (a : A) : commutes (E:=E) (ret a).
Proof. by intros st ks vs. Qed.

Lemma commutes_raise {A} e : commutes (E:=E) (A:=A) (raise e).
Proof. by intros st ks vs. Qed.

Lemma commutes_lift {A} (r : Result A) : commutes (E:=E) (lift r).
Proof. by intros st ks vs. Qed.

Lemma commutes_emit ev : commutes (emit E ev).
Proof. by intros st ks vs. Qed.

Lemma commutes_lift_world {A} (f : World E -> Result A * World E) :
  commutes (lift_world f).
Proof.
  intros st ks vs. unfold lift_world. simpl. by destruct (f (world st)).
Qed.

Lemma commutes_bind {A B} (m : M E A) (k : A -> M E B) :
  commutes m -> (forall a, commutes (k a)) -> commutes (bind m k).
Proof.
  intros Hm Hk st ks vs. unfold bind. rewrite Hm.
  destruct (m st) as [[a|e] st']; simpl; [apply Hk | done].
Qed.

Lemma commutes_try_except_else {A B} (body : M E A) catches
    (handler : Exn -> M E B) (orelse : A -> M E B) :
  commutes body -> (forall e, commutes (handler e)) ->
  (forall a, commutes (orelse a)) ->
  commutes (try_except_else body catches handler orelse).
Proof.
  intros Hb Hh Ho st ks vs. unfold try_except_else. rewrite Hb.
  destruct (body st) as [[a|e] st']; simpl; [apply Ho|].
  destruct (catches e); [apply Hh | done].
Qed.

Lemma commutes_get_serializer name : commutes (_get_serializer E name).
Proof.
  intros st ks vs. destruct name as [|n|r]; try reflexivity.
  destruct (get_serializer_resolution E n st)
    as [c Hc|Hc Ha|path e Hc Ha Hs|path cls e w Hc Ha Hs Hi
        |path cls w Hc Ha Hs Hi]; cbn [fst snd].
  - exact (get_serializer_cached E n c (with_defaults st ks vs) Hc).
  - exact (get_serializer_unknown E n (with_defaults st ks vs) Hc Ha).
  - exact (get_serializer_import_error E n path e
             (with_defaults st ks vs) Hc Ha Hs).
  - exact (get_serializer_init_error E n path cls e w
             (with_defaults st ks vs) Hc Ha Hs Hi).
  - exact (get_serializer_fresh E n path cls w
             (with_defaults st ks vs) Hc Ha Hs Hi).
Qed.

Create HintDb commutes.

#[local] Hint Resolve commutes_ret commutes_raise commutes_lift
  commutes_emit commutes_lift_world commutes_get_serializer : commutes.

Ltac commuting :=
  repeat first
    [ solve [auto 1 with commutes nocore]
    | apply commutes_bind; [|intros ?]
    | apply commutes_try_except_else; [|intros ?|intros ?]
    | match goal with
      | |- commutes (if ?b then _ else _) => destruct b
      | |- commutes (match ?x with _ => _ end) => destruct x
      end ].

Lemma commutes_loads s data : commutes (_loads E s data).
Proof. unfold _loads. commuting. Qed.

#[local] Hint Resolve commutes_loads : commutes.

Lemma commutes_loads_body typ s data : commutes (loads_body E typ s data).
Proof.
  unfold loads_body, call_maybe_reconstruct, _loads_model,
    typ_options_serializer, call_typ, call_model.
  destruct (is_codec_hint typ); [commuting|]. destruct typ; commuting.
Qed.

Lemma bind_ret {A B} (a : A) (k : A -> M E B) st :
  bind (ret a) k st = k a st.
Proof. reflexivity. Qed.

(** With a class that declares a serializer, the default passed to
    [_loads_model] plays no part. *)
Lemma loads_body_own_serializer cls s1 s2 data st :
  truthy (options_serializer cls) = true ->
  loads_body E (TModel cls) s1 data st = loads_body E (TModel cls) s2 data st.
Proof.
  intros Ht.
  assert (py_or (options_serializer cls) s1
          = py_or (options_serializer cls) s2) as Heq
    by (unfold py_or; by rewrite Ht).
  unfold loads_body, is_codec_hint, _loads_model, typ_options_serializer.
  rewrite !bind_ret. by rewrite Heq.
Qed.

(** X7: for a typed record whose class declares a serializer, the default
    serializers of the registry have no influence: [loads_value] and
    [loads_key] with that class as type hint, and [dumps_key] of an
    instance, give the same outcome on a registry that differs in its
    defaults only. *)
Theorem record_serializer_overrides_defaults cls data topic arg st ks vs :
  truthy (options_serializer cls) = true ->
  loads_value E (TModel cls) data (with_defaults st ks vs)
  = (fst (loads_value E (TModel cls) data st),
     with_defaults (snd (loads_value E (TModel cls) data st)) ks vs)
  /\ loads_key E (TModel cls) data (with_defaults st ks vs)
     = (fst (loads_key E (TModel cls) data st),
        with_defaults (snd (loads_key E (TModel cls) data st)) ks vs)
  /\ dumps_key E topic (VModel cls data) arg (with_defaults st ks vs)
     = (fst (dumps_key E topic (VModel cls data) arg st),
        with_defaults (snd (dumps_key E topic (VModel cls data) arg st))
          ks vs).
Proof.
  intros Ht. split_and!.
  - destruct (is_none data) eqn:Hd.
    { unfold loads_value. by rewrite Hd. }
    rewrite !loads_value_unfold by exact Hd. simpl.
    rewrite (loads_body_own_serializer cls vs (value_serializer (reg st)))
      by exact Ht.
    rewrite commutes_loads_body.
    by destruct (loads_body _ _ _ _ st) as [[v|e] st'].
  - destruct (is_none data) eqn:Hd.
    { unfold loads_key. by rewrite Hd. }
    rewrite !loads_key_unfold by done. simpl.
    rewrite (loads_body_own_serializer cls ks (key_serializer (reg st)))
      by exact Ht.
    rewrite commutes_loads_body.
    by destruct (loads_body _ _ _ _ st) as [[v|e] st'].
  - rewrite !dumps_key_dispatch. cbv zeta. simpl.
    unfold py_or. rewrite !Ht. rewrite commutes_get_serializer.
    destruct (_get_serializer E _ st) as [[c|e] st1]; simpl; [reflexivity|].
    by destruct (isinstance "KeyError" e).
Qed.


(** X9: when the serializer in force names an external client, that
    client does all the work: [_loads] returns what its [loads] returns,
    [dumps_key] and [dumps_value] what its [dumps_key] and [dumps_value]
    return, for typed records and for any other value alike; the codec
    layer and the record's own [dumps] are not called. *)
Theorem external_client_takes_precedence s c st st1 :
  _get_serializer E s st = (Ok c, st1) ->
  (forall data,
     _loads E s data st
     = client_call st1 (EvClientLoads c data) (ser_loads E c data))
  /\ (forall topic key arg,
        key_effective_serializer (reg st) key = s -> truthy s = true ->
        dumps_key E topic key arg st
        = client_call st1 (EvClientDumpsKey c topic key)
            (ser_dumps_key E c topic key))
  /\ (forall topic value arg,
        value_effective_serializer (reg st) value arg = s ->
        truthy s = true ->
        dumps_value E topic value arg st
        = client_call st1 (EvClientDumpsValue c topic value)
            (ser_dumps_value E c topic value)).
Proof.
  intros Hg. split_and!.
  - intros data. by rewrite loads_dispatch, Hg.
  - intros topic key arg Hs Ht. rewrite dumps_key_dispatch. cbv zeta.
    by rewrite Hs, Ht, Hg.
  - intros topic value arg Hs Ht. rewrite dumps_value_dispatch. cbv zeta.
    by rewrite Hs, Ht, Hg.
Qed.

(** X10: a [KeyError] raised while the class of a registered, not yet
    cached alias is imported, or by the constructor of that class, leaves
    [_get_serializer] and is taken for a missing alias: the caller of
    [_loads], [dumps_key] or [dumps_value] does not see it and gets the
    outcome of the fallback for that name, which is the codec layer, or
    for a typed record being encoded the record's own [dumps]; the
    registry object is as before, nothing is cached. *)
Theorem plugin_KeyError_is_taken_for_missing_alias n path e st st1 :
  _override (reg st) !! n = None ->
  override_classes E !! n = Some path ->
  isinstance "KeyError" e = true ->
  (symbol_by_name E path = Raise e
   /\ st1 = logged st [EvGetAlias n; EvSymbolByName path])
  \/ (exists cls w,
        symbol_by_name E path = Ok cls
        /\ ser_init E cls (next_id st) (world st) = (Raise e, w)
        /\ st1 = {| reg := reg st; next_id := S (next_id st); world := w;
                    trace := trace st ++ [EvGetAlias n; EvSymbolByName path;
                                          EvCallClass cls (next_id st)] |}) ->
  _get_serializer E (CStr n) st = (Raise e, st1)
  /\ reg st1 = reg st
  /\ (forall data,
        _loads E (CStr n) data st
        = pure_call st1 (EvCodecLoads (CStr n) data)
            (codec_loads E (CStr n) data))
  /\ (forall topic key arg,
        key_effective_serializer (reg st) key = CStr n ->
        truthy (CStr n) = true ->
        dumps_key E topic key arg st
        = match key with
          | VModel cls data =>
              pure_call st1 (EvModelDumps cls data (CStr n))
                (model_dumps E cls data (CStr n))
          | _ =>
              pure_call st1 (EvCodecDumps (CStr n) key)
                (codec_dumps E (CStr n) key)
          end)
  /\ (forall topic value arg,
        value_effective_serializer (reg st) value arg = CStr n ->
        truthy (CStr n) = true ->
        dumps_value E topic value arg st
        = match value with
          | VModel cls data =>
              pure_call st1 (EvModelDumps cls data (CStr n))
                (model_dumps E cls data (CStr n))
          | _ =>
              pure_call st1 (EvCodecDumps (CStr n) value)
                (codec_dumps E (CStr n) value)
          end).
Proof.
  intros Hc Ha He Hsrc.
  assert (_get_serializer E (CStr n) st = (Raise e, st1)
          /\ reg st1 = reg st) as [Hg Hreg].
  { destruct Hsrc as [[Hs ->]|(cls & w & Hs & Hi & ->)].
    - split; [|reflexivity]. by apply get_serializer_import_error.
    - split; [|reflexivity]. by eapply get_serializer_init_error. }
  split_and!; try done.
  - intros data. by rewrite loads_dispatch, Hg, He.
  - intros topic key arg Hs Ht. rewrite dumps_key_dispatch. cbv zeta.
    rewrite Hs, Ht, Hg, He. by destruct key.
  - intros topic value arg Hs Ht. rewrite dumps_value_dispatch. cbv zeta.
    rewrite Hs, Ht, Hg, He. by destruct value.
Qed.

(** X11: an exception that is not an instance of [Exception] (a keyboard
    interrupt, say) raised in the [try] block of a decoder goes to the
    caller as it is; it is not turned into a decode error. *)
Theorem decoders_let_non_exceptions_through typ data st e0 st' :
  isinstance "Exception" e0 = false -> is_none data = false ->
  (loads_body E typ (value_serializer (reg st)) data st = (Raise e0, st') ->
   loads_value E typ data st = (Raise e0, st'))
  /\ (typ_is_none typ = false ->
      loads_body E typ (key_serializer (reg st)) data st = (Raise e0, st') ->
      loads_key E typ data st = (Raise e0, st')).
Proof.
  intros He Hd. split.
  - intros Hb. rewrite loads_value_unfold, Hb by exact Hd.
    unfold as_decode_error. by rewrite He.
  - intros Ht Hb. rewrite loads_key_unfold, Hb by done.
    unfold as_decode_error. by rewrite He.
Qed.

(** X12: a class that is not a typed record (such as [bytes]) given as
    type hint makes both decoders fail with their decode error, whose
    message is that of the attribute error on [_options]; the data is not
    decoded: nothing is called and the state is as before. *)
Theorem class_hint_without_options_fails name data st :
  is_none data = false ->
  let e := AttributeError ("type object " +:+ repr_str name
                           +:+ " has no attribute '_options'") in
  loads_value E (TClass name) data st
  = (Raise (decode_error mro_ValueDecodeError e), st)
  /\ loads_key E (TClass name) data st
     = (Raise (decode_error mro_KeyDecodeError e), st).
Proof.
  intros Hd e. split.
  - by rewrite loads_value_unfold.
  - by rewrite loads_key_unfold.
Qed.

(** X13: when no key serializer is in force, [dumps_key] calls nothing and
    returns [None] for [None], the encoded bytes for a text string and
    any other key as it is; encoding its result again changes nothing. *)
Theorem dumps_key_without_serializer topic topic' key arg arg' st :
  truthy (key_effective_serializer (reg st) key) = false ->
  let k := if is_none key then VNone else want_bytes key in
  dumps_key E topic key arg st = (Ok k, st)
  /\ dumps_key E topic' k arg' st = (Ok k, st)
  /\ (k = VNone <-> key = VNone)
  /\ (forall t, key = VStr t -> k = VBytes (list_byte_of_string t)).
Proof.
  intros Ht k. split_and!.
  - rewrite dumps_key_dispatch. cbv zeta. by rewrite Ht.
  - rewrite dumps_key_dispatch. cbv zeta.
    assert (key_effective_serializer (reg st) k
            = key_effective_serializer (reg st) key) as ->
      by (subst k; by destruct key).
    rewrite Ht. subst k. by destruct key.
  - subst k. by destruct key.
  - intros t ->. reflexivity.
Qed.

End Selection.

(* ===================================================================== *)
(** ** These statements at work on the demonstration registries           *)
(* ===================================================================== *)

Lemma reachable_st_raw : reachable Demo.env Demo.st_raw.
Proof. apply reachable_fresh. Defined.


Lemma reachable_st_avro : reachable Demo.env Demo.st_avro.
Proof. apply reachable_run, reachable_fresh. Defined.

Lemma reachable_cache_well_formed_witness :
  reachable Demo.env Demo.st_avro
  /\ _override (reg Demo.st_avro) !! "avro" = Some Demo.avro_client
  /\ client_id Demo.avro_client < next_id Demo.st_avro.
Proof.
  split; [exact reachable_st_avro|]. split; [reflexivity|].
  destruct (reachable_cache_well_formed Demo.env Demo.st_avro
              reachable_st_avro) as [H _].
  exact (proj1 (H "avro" Demo.avro_client eq_refl)).
Defined.

Lemma plain_value_round_trip_witness :
  reachable Demo.env Demo.st_raw
  /\ no_client Demo.env (CStr "raw")
  /\ fst (loads_value Demo.env TNone Demo.sub_bytes
            (snd (dumps_value Demo.env "t" Demo.sub_bytes (CStr "raw")
                    Demo.st_raw)))
     = Ok Demo.sub_bytes.
Proof.
  split; [exact reachable_st_raw|]. split; [reflexivity|].
  destruct (plain_value_round_trip Demo.env "t" Demo.sub_bytes (CStr "raw")
              Demo.sub_bytes Demo.st_raw reachable_st_raw eq_refl eq_refl
              eq_refl eq_refl eq_refl eq_refl eq_refl eq_refl) as [_ H].
  by rewrite H.
Defined.



Lemma record_serializer_overrides_defaults_witness :
  truthy (options_serializer Demo.RawPoint) = true
  /\ fst (loads_value Demo.env (TModel Demo.RawPoint) Demo.dict_a1
            (with_defaults Demo.st0 (CStr "fail") (CStr "fail")))
     = fst (loads_value Demo.env (TModel Demo.RawPoint) Demo.dict_a1
              Demo.st0).
Proof.
  split; [reflexivity|].
  destruct (record_serializer_overrides_defaults Demo.env Demo.RawPoint
              Demo.dict_a1 "t" CNone Demo.st0 (CStr "fail") (CStr "fail")
              eq_refl) as [H _].
  by rewrite H.
Defined.


Lemma external_client_takes_precedence_witness :
  _get_serializer Demo.env (CStr "avro") Demo.st0
  = (Ok Demo.avro_client, Demo.st_avro)
  /\ dumps_value Demo.env "t" Demo.dict_a1 (CStr "avro") Demo.st0
     = client_call Demo.st_avro
         (EvClientDumpsValue Demo.avro_client "t" Demo.dict_a1)
         (ser_dumps_value Demo.env Demo.avro_client "t" Demo.dict_a1).
Proof.
  split; [reflexivity|].
  destruct (external_client_takes_precedence Demo.env (CStr "avro")
              Demo.avro_client Demo.st0 Demo.st_avro eq_refl) as (_ & _ & H).
  exact (H "t" Demo.dict_a1 (CStr "avro") eq_refl eq_refl).
Defined.

Lemma plugin_KeyError_is_taken_for_missing_alias_witness :
  symbol_by_name Demo.broken_env Demo.needs_env_path
  = Raise (KeyError (CStr "SCHEMA_REGISTRY_URL"))
  /\ ser_init Demo.broken_env Demo.needs_conf_path 0 0
     = (Raise (KeyError (CStr "url")), 0)
  /\ fst (_loads Demo.broken_env (CStr "needs_env") Demo.sub_bytes
            Demo.broken_st0)
     = Ok Demo.sub_bytes
  /\ fst (dumps_value Demo.broken_env "t" Demo.point CNone
            (fresh_state Demo.broken_env CNone (CStr "needs_conf") 0))
     = model_dumps Demo.broken_env Demo.Point Demo.dict_a1
         (CStr "needs_conf")
  /\ fst (dumps_value Demo.broken_env "t" Demo.sub_bytes (CStr "needs_conf")
            Demo.broken_st0)
     = Ok Demo.sub_bytes.
Proof.
  split; [reflexivity|]. split; [reflexivity|]. split; [|split].
  - destruct (plugin_KeyError_is_taken_for_missing_alias Demo.broken_env
                "needs_env" Demo.needs_env_path
                (KeyError (CStr "SCHEMA_REGISTRY_URL")) Demo.broken_st0
                (logged Demo.broken_st0
                   [EvGetAlias "needs_env";
                    EvSymbolByName Demo.needs_env_path])
                eq_refl eq_refl eq_refl (or_introl (conj eq_refl eq_refl)))
      as (_ & _ & H & _).
    by rewrite H.
  - pose (st := fresh_state Demo.broken_env CNone (CStr "needs_conf") 0).
    destruct (plugin_KeyError_is_taken_for_missing_alias Demo.broken_env
                "needs_conf" Demo.needs_conf_path
                (KeyError (CStr "url")) st
                (Build_State Demo.broken_env (reg st) 1 0
                   [EvGetAlias "needs_conf";
                    EvSymbolByName Demo.needs_conf_path;
                    EvCallClass Demo.needs_conf_path 0])
                eq_refl eq_refl eq_refl
                (or_intror (ex_intro _ Demo.needs_conf_path
                   (ex_intro _ 0 (conj eq_refl (conj eq_refl eq_refl))))))
      as (_ & _ & _ & _ & H).
    unfold Demo.point. fold st.
    by rewrite (H "t" (VModel Demo.Point Demo.dict_a1) CNone
                  eq_refl eq_refl).
  - destruct (plugin_KeyError_is_taken_for_missing_alias Demo.broken_env
                "needs_conf" Demo.needs_conf_path
                (KeyError (CStr "url")) Demo.broken_st0
                (Build_State Demo.broken_env (reg Demo.broken_st0) 1 0
                   [EvGetAlias "needs_conf";
                    EvSymbolByName Demo.needs_conf_path;
                    EvCallClass Demo.needs_conf_path 0])
                eq_refl eq_refl eq_refl
                (or_intror (ex_intro _ Demo.needs_conf_path
                   (ex_intro _ 0 (conj eq_refl (conj eq_refl eq_refl))))))
      as (_ & _ & _ & _ & H).
    by rewrite (H "t" Demo.sub_bytes (CStr "needs_conf") eq_refl eq_refl).
Defined.

Lemma decoders_let_non_exceptions_through_witness :
  isinstance "Exception" Demo.KeyboardInterrupt = false
  /\ fst (loads_value Demo.broken_env TNone Demo.sub_bytes Demo.broken_st0)
     = Raise Demo.KeyboardInterrupt.
Proof.
  split; [reflexivity|].
  destruct (decoders_let_non_exceptions_through Demo.broken_env TNone
              Demo.sub_bytes Demo.broken_st0 Demo.KeyboardInterrupt
              (logged Demo.broken_st0
                 [EvGetAlias "interrupt";
                  EvCodecLoads (CStr "interrupt") Demo.sub_bytes])
              eq_refl eq_refl) as [H _].
  by rewrite (H eq_refl).
Defined.

Lemma class_hint_without_options_fails_witness :
  is_none Demo.sub_bytes = false
  /\ exc_str
       (match fst (loads_value Demo.env (TClass "bytes") Demo.sub_bytes
                     Demo.st0) with
        | Raise e => e
        | Ok _ => KeyError CNone
        end)
     = "type object 'bytes' has no attribute '_options'".
Proof.
  split; [reflexivity|].
  by rewrite (proj1 (class_hint_without_options_fails Demo.env "bytes"
                       Demo.sub_bytes Demo.st0 eq_refl)).
Defined.

Lemma dumps_key_without_serializer_witness :
  truthy (key_effective_serializer (reg Demo.st0) (VStr "k")) = false
  /\ dumps_key Demo.env "t" (VStr "k") (CStr "json") Demo.st0
     = (Ok (VBytes (list_byte_of_string "k")), Demo.st0).
Proof.
  split; [reflexivity|].
  exact (proj1 (dumps_key_without_serializer Demo.env "t" "t" (VStr "k")
                  (CStr "json") CNone Demo.st0 eq_refl)).
Defined.
